(** * workflows-mcp: parameter schema compiler, declaration merge, prompt templates

    A shallow embedding of the pure core of the MCP workflow server:

    - [packages/mcp-server/src/config.ts]: [mergeConfigs], [mergeTools],
      [validateToolConfig], [validateNestedParameter],
      [convertParametersToJsonSchema], [convertParameterToJsonSchema],
      [convertParametersToZodSchema], [convertParameterToZodSchema];
    - [packages/mcpn/src/utils.ts]: [appendFormattedTools], [processTemplate].

    Conventions of the embedding.

    - A JavaScript object used as a record with optional fields is a Rocq
      record whose fields are [option]s; [None] is [undefined].
    - A JavaScript object used as a mapping ([Record<string, T>]) is an
      association list of its own properties in enumeration order
      ([Object.entries]) with pairwise distinct keys. Call arguments, and
      the configuration that [validateToolConfig] is given, are read by
      arbitrary names ([key in obj], [obj[key]]): there the members
      inherited from [Object.prototype] are modelled too ([JS.get],
      [JS.hasProperty], [JS.isInherited]). The merge functions are
      modelled on own keys, and assignment appends a new key:
      [JS.ordinaryKey] describes the keys on which JavaScript does just
      that.
    - Strings are [string]s of bytes; white space is the ASCII white
      space: names, tools strings and templates are taken not to hold the
      other characters that [trim] and [\s] remove (U+00A0, U+FEFF,
      U+2028 and the like).
    - Numbers that occur in declarations (enum literals, defaults,
      arguments) are integers that a JavaScript number holds exactly.
    - The validators built with the zod library (version 3) are a syntax
      tree [ZodType] with the library's acceptance semantics [accepts]. *)

From Stdlib Require Import List String Ascii Bool ZArith Arith Lia.
From Stdlib Require Import DecimalString.
From Equations Require Import Equations.
Import ListNotations.

Set Warnings "-register-all".

Local Open Scope list_scope.
Local Open Scope string_scope.

(* ===================================================================== *)
(** * JavaScript strings, values and mappings *)
(* ===================================================================== *)

Module JS.

(** The line feed, written [\n] in the sources. *)
Definition LF : string := String (ascii_of_nat 10) EmptyString.

(** [\s] and the characters removed by [String.prototype.trim], on bytes:
    tab, line feed, vertical tab, form feed, carriage return, space. *)
Definition isSpace (c : ascii) : bool :=
  let n := nat_of_ascii c in
  (Nat.leb 9 n && Nat.leb n 13) || Nat.eqb n 32.

Fixpoint trimStart (s : string) : string :=
  match s with
  | EmptyString => EmptyString
  | String c s' => if isSpace c then trimStart s' else s
  end.

Fixpoint trimEnd (s : string) : string :=
  match s with
  | EmptyString => EmptyString
  | String c s' =>
      match trimEnd s' with
      | EmptyString => if isSpace c then EmptyString else String c EmptyString
      | t => String c t
      end
  end.

(** [s.trim()] *)
Definition trim (s : string) : string := trimEnd (trimStart s).

(** [s.split(",")]: the segments between commas; never empty. *)
Fixpoint split_comma (s : string) : list string :=
  match s with
  | EmptyString => [EmptyString]
  | String c s' =>
      if Ascii.eqb c ","%char then EmptyString :: split_comma s'
      else match split_comma s' with
           | seg :: segs => String c seg :: segs
           | [] => [String c EmptyString]
           end
  end.

(** [s.split(",").map((t) => t.trim())] *)
Definition trimmedNames (s : string) : list string :=
  map trim (split_comma s).

(** [xs.join(sep)] *)
Fixpoint join (sep : string) (xs : list string) : string :=
  match xs with
  | [] => EmptyString
  | [x] => x
  | x :: rest => x ++ sep ++ join sep rest
  end.

(** [new Set(xs)] followed by [Array.from]: a JavaScript [Set] keeps its
    elements in first-insertion order. *)
Definition Set_add (x : string) (s : list string) : list string :=
  if existsb (String.eqb x) s then s else (s ++ [x])%list.

Definition Set_from (xs : list string) : list string :=
  fold_left (fun s x => Set_add x s) xs [].

(** Truthiness of an optional string: [undefined] and [""] are falsy. *)
Definition truthy_string (s : option string) : bool :=
  match s with
  | Some (String _ _) => true
  | _ => false
  end.

(** Truthiness of an optional boolean. *)
Definition truthy_bool (b : option bool) : bool :=
  match b with
  | Some true => true
  | _ => false
  end.

(** JSON-like values: call arguments, defaults; and what a property read
    finds on the prototype of a plain object: a built-in function, or
    [Object.prototype] itself under the name [__proto__]. *)
Inductive value : Type :=
| VNull
| VBool (b : bool)
| VNum (n : Z)
| VStr (s : string)
| VArr (elems : list value)
| VObj (fields : list (string * value))
| VFunction (member : string)
| VObjectPrototype.

(** Decimal rendering of integers: [String(5) = "5"], [String(-5) = "-5"]. *)
Definition string_of_Z (n : Z) : string :=
  NilZero.string_of_int (Z.to_int n).

Definition string_of_nat (n : nat) : string :=
  NilZero.string_of_uint (Nat.to_uint n).

(** The name of the built-in function held by a member of
    [Object.prototype]: [constructor] is [Object]. *)
Definition functionName (member : string) : string :=
  if String.eqb member "constructor" then "Object" else member.

(** [String(v)]. Array elements are joined with a comma, [null] elements
    rendering as the empty string; a plain object renders as
    ["[object Object]"], a built-in function as its native source text.
    Integers are printed in decimal, as [String] does for the integers
    that a number holds exactly, below [1e21]. *)
Fixpoint toString (v : value) : string :=
  match v with
  | VNull => "null"
  | VBool true => "true"
  | VBool false => "false"
  | VNum n => string_of_Z n
  | VStr s => s
  | VArr elems =>
      join "," (map (fun e => match e with VNull => EmptyString | _ => toString e end) elems)
  | VObj _ => "[object Object]"
  | VFunction member => "function " ++ functionName member ++ "() { [native code] }"
  | VObjectPrototype => "[object Object]"
  end.

(** ** Mappings in enumeration order *)

Section Mapping.
Context {A : Type}.

(** [m[k]] *)
Fixpoint lookup (k : string) (m : list (string * A)) : option A :=
  match m with
  | [] => None
  | (k', a) :: m' => if String.eqb k k' then Some a else lookup k m'
  end.

(** [m[k] = a]: an existing key keeps its place, a new key goes last.
    (JavaScript enumerates a new canonical array index before the other
    keys, and an assignment under [__proto__] adds no key: see
    [ordinaryKey] below.) *)
Fixpoint assign (k : string) (a : A) (m : list (string * A)) : list (string * A) :=
  match m with
  | [] => [(k, a)]
  | (k', a') :: m' =>
      if String.eqb k k' then (k, a) :: m' else (k', a') :: assign k a m'
  end.

(** [Object.keys(m)] *)
Definition keys (m : list (string * A)) : list string := map fst m.

(** [Object.fromEntries(es)] *)
Definition fromEntries (es : list (string * A)) : list (string * A) :=
  fold_left (fun m e => assign (fst e) (snd e) m) es [].
End Mapping.

(** ** Members inherited from [Object.prototype] *)

(** The property names of [Object.prototype]. *)
Definition objectPrototypeMembers : list string :=
  ["constructor"; "__defineGetter__"; "__defineSetter__"; "hasOwnProperty";
   "__lookupGetter__"; "__lookupSetter__"; "isPrototypeOf";
   "propertyIsEnumerable"; "toString"; "valueOf"; "__proto__"; "toLocaleString"].

Definition isInherited (k : string) : bool :=
  existsb (String.eqb k) objectPrototypeMembers.

(** What a plain object without an own property [k] answers to [obj[k]]:
    the member of its prototype, if any. *)
Definition inheritedMember (k : string) : option value :=
  if String.eqb k "__proto__" then Some VObjectPrototype
  else if isInherited k then Some (VFunction k)
  else None.

(** [Object.prototype[k]]: its own members; its own prototype is [null]. *)
Definition prototypeMember (k : string) : option value :=
  if String.eqb k "__proto__" then Some VNull
  else if isInherited k then Some (VFunction k)
  else None.

(** [obj[k]] on a plain object with the own properties [m]: the own
    property first, the inherited member otherwise. *)
Definition get (k : string) (m : list (string * value)) : option value :=
  match lookup k m with
  | Some v => Some v
  | None => inheritedMember k
  end.

(** [k in obj] on a plain object with the own properties [m]. *)
Definition hasProperty (k : string) (m : list (string * value)) : bool :=
  match get k m with
  | Some _ => true
  | None => false
  end.

(** Keys that JavaScript enumerates before all others, in numeric order:
    canonical array indices, which are strings of digits. *)
Definition isDigit (c : ascii) : bool :=
  let n := nat_of_ascii c in
  Nat.leb 48 n && Nat.leb n 57.

Fixpoint allDigits (s : string) : bool :=
  match s with
  | EmptyString => true
  | String c s' => isDigit c && allDigits s'
  end.

Definition isIntegerLike (k : string) : bool :=
  match k with
  | EmptyString => false
  | String _ _ => allDigits k
  end.

(** A key on which a plain object behaves as a mapping in insertion
    order: not a name of [Object.prototype], not a string of digits. *)
Definition ordinaryKey (k : string) : bool :=
  negb (isInherited k) && negb (isIntegerLike k).

(** One field of an object spread [{...x, ...y}]: the field of [y] when
    [y] has it, the field of [x] otherwise. *)
Definition spread {A : Type} (x y : option A) : option A :=
  match y with
  | Some _ => y
  | None => x
  end.

End JS.

(* ===================================================================== *)
(** * Parameter shapes and their two compilers *)
(* ===================================================================== *)

Module Schema.
Import JS.

(** An element of [enum?: (string | number)[]]. *)
Inductive EnumValue : Type :=
| ENum (n : Z)
| EStr (s : string).

Definition value_of_enum (e : EnumValue) : value :=
  match e with
  | ENum n => VNum n
  | EStr s => VStr s
  end.

(** [interface ParameterConfig]. The [type] tag is kept as the string a
    declaration file supplies (absent when [None]), since the code tests
    it at run time. *)
Inductive ParameterConfig : Type :=
  mkParameterConfig {
    type : option string;
    description : option string;
    required : option bool;
    default : option value;
    enum : option (list EnumValue);
    items : option ParameterConfig;
    properties : option (list (string * ParameterConfig)) }.

(** [param.type === tag] *)
Definition type_is (ty : option string) (tag : string) : bool :=
  match ty with
  | Some t => String.eqb t tag
  | None => false
  end.

(** ** The wire schema *)

(** The JSON-Schema object built by the wire compiler; an absent key is
    [None]. *)
Inductive JsonSchema : Type :=
  mkJsonSchema {
    schema_type : option string;
    schema_items : option JsonSchema;
    schema_properties : option (list (string * JsonSchema));
    schema_required : option (list string);
    schema_additionalProperties : option bool;
    schema_enum : option (list EnumValue);
    schema_description : option string;
    schema_default : option value }.

(** [const schema: any = {}] *)
Definition emptySchema : JsonSchema :=
  mkJsonSchema None None None None None None None None.

Definition set_type (t : string) (s : JsonSchema) : JsonSchema :=
  mkJsonSchema (Some t) (schema_items s) (schema_properties s) (schema_required s)
    (schema_additionalProperties s) (schema_enum s) (schema_description s) (schema_default s).

Definition set_items (i : JsonSchema) (s : JsonSchema) : JsonSchema :=
  mkJsonSchema (schema_type s) (Some i) (schema_properties s) (schema_required s)
    (schema_additionalProperties s) (schema_enum s) (schema_description s) (schema_default s).

Definition set_properties (ps : list (string * JsonSchema)) (s : JsonSchema) : JsonSchema :=
  mkJsonSchema (schema_type s) (schema_items s) (Some ps) (schema_required s)
    (schema_additionalProperties s) (schema_enum s) (schema_description s) (schema_default s).

Definition set_required (r : list string) (s : JsonSchema) : JsonSchema :=
  mkJsonSchema (schema_type s) (schema_items s) (schema_properties s) (Some r)
    (schema_additionalProperties s) (schema_enum s) (schema_description s) (schema_default s).

Definition set_additionalProperties (b : bool) (s : JsonSchema) : JsonSchema :=
  mkJsonSchema (schema_type s) (schema_items s) (schema_properties s) (schema_required s)
    (Some b) (schema_enum s) (schema_description s) (schema_default s).

Definition set_enum (e : list EnumValue) (s : JsonSchema) : JsonSchema :=
  mkJsonSchema (schema_type s) (schema_items s) (schema_properties s) (schema_required s)
    (schema_additionalProperties s) (Some e) (schema_description s) (schema_default s).

Definition set_description (d : string) (s : JsonSchema) : JsonSchema :=
  mkJsonSchema (schema_type s) (schema_items s) (schema_properties s) (schema_required s)
    (schema_additionalProperties s) (schema_enum s) (Some d) (schema_default s).

Definition set_default (v : value) (s : JsonSchema) : JsonSchema :=
  mkJsonSchema (schema_type s) (schema_items s) (schema_properties s) (schema_required s)
    (schema_additionalProperties s) (schema_enum s) (schema_description s) (Some v).

(** The names pushed on [required] by the loop of
    [convertParametersToJsonSchema]. *)
Definition requiredNames (parameters : list (string * ParameterConfig)) : list string :=
  map fst (filter (fun np => truthy_bool (required (snd np))) parameters).

(** The object literal [{ type: "object", properties, ...(required.length >
    0 ? { required } : {}) }]. *)
Definition objectSchema (props : list (string * JsonSchema)) (req : list string) : JsonSchema :=
  let schema := set_properties props (set_type "object" emptySchema) in
  match req with
  | [] => schema
  | _ :: _ => set_required req schema
  end.

(** The tail of [convertParameterToJsonSchema]: description and default. *)
Definition copyMetadata (desc : option string) (dflt : option value)
  (schema : JsonSchema) : JsonSchema :=
  let schema := match desc with
                | Some (String c d) => set_description (String c d) schema
                | _ => schema
                end in
  match dflt with
  | Some v => set_default v schema
  | None => schema
  end.

(** [case "enum"] of [convertParameterToJsonSchema]. *)
Definition enumSchema (en : option (list EnumValue)) (schema : JsonSchema) : JsonSchema :=
  match en with
  | Some (firstValue :: rest) =>
      let schema := match firstValue with
                    | ENum _ => set_type "number" schema
                    | EStr _ => set_type "string" schema
                    end in
      set_enum (firstValue :: rest) schema
  | _ => set_enum [] (set_type "string" schema)
  end.

(** [convertParameterToJsonSchema]; the inner loop is the body of
    [convertParametersToJsonSchema] on [param.properties]. The [switch]
    has no [default] branch. *)
Fixpoint convertParameterToJsonSchema (param : ParameterConfig) : JsonSchema :=
  match param with
  | mkParameterConfig ty desc _ dflt en it props =>
      let schema := emptySchema in
      let schema :=
        if type_is ty "string" then set_type "string" schema
        else if type_is ty "number" then set_type "number" schema
        else if type_is ty "boolean" then set_type "boolean" schema
        else if type_is ty "array" then
          let schema := set_type "array" schema in
          match it with
          | Some i => set_items (convertParameterToJsonSchema i) schema
          | None => set_items (set_type "string" emptySchema) schema
          end
        else if type_is ty "object" then
          let schema := set_type "object" schema in
          match props with
          | Some ps =>
              let nestedSchema :=
                objectSchema
                  (map (fun np => (fst np, convertParameterToJsonSchema (snd np))) ps)
                  (requiredNames ps) in
              let schema :=
                match schema_properties nestedSchema with
                | Some nested => set_properties nested schema
                | None => schema
                end in
              match schema_required nestedSchema with
              | Some (r :: rs) => set_required (r :: rs) schema
              | _ => schema
              end
          | None => set_additionalProperties true schema
          end
        else if type_is ty "enum" then enumSchema en schema
        else schema in
      copyMetadata desc dflt schema
  end.

(** [convertParametersToJsonSchema] *)
Definition convertParametersToJsonSchema
  (parameters : list (string * ParameterConfig)) : JsonSchema :=
  objectSchema
    (map (fun np => (fst np, convertParameterToJsonSchema (snd np))) parameters)
    (requiredNames parameters).

(** ** The validator *)

(** The part of zod 3 that the validator compiler uses. [ZDescribe] is
    [schema.describe(d)], which only attaches documentation. *)
Inductive ZodType : Type :=
| ZString
| ZNumber
| ZBoolean
| ZUnknown
| ZLiteral (v : EnumValue)
| ZUnion (options : list ZodType)
| ZEnum (values : list EnumValue)
| ZArray (element : ZodType)
| ZObject (shape : list (string * ZodType))
| ZRecord (valueType : ZodType)
| ZOptional (inner : ZodType)
| ZDescribe (inner : ZodType) (d : string)
| ZDefault (inner : ZodType) (defaultValue : value).

Definition EnumValue_eqb (a b : EnumValue) : bool :=
  match a, b with
  | ENum x, ENum y => Z.eqb x y
  | EStr x, EStr y => String.eqb x y
  | _, _ => false
  end.

(** [input === literal] for a string or number literal. *)
Definition strictEquals (input : value) (literal : EnumValue) : bool :=
  match input, literal with
  | VNum x, ENum y => Z.eqb x y
  | VStr x, EStr y => String.eqb x y
  | _, _ => false
  end.

(** Whether [schema.safeParse(input)] succeeds; [None] is an absent
    ([undefined]) input.
    - [z.enum] accepts a string that is among its values;
    - [z.union] accepts what one of its options accepts;
    - [z.object] requires an object, checks each declared key on
      [input[key]], a read that finds own properties and, failing that,
      the members inherited from [Object.prototype], and ignores
      undeclared keys;
    - [z.record] requires an object and checks its enumerable properties,
      of which [Object.prototype] has none;
    - a function is accepted by [z.unknown()] only;
    - [.optional()] accepts an absent input;
    - [.default(d)] replaces an absent input by [d] and then runs the
      inner schema. *)
Fixpoint accepts (schema : ZodType) (input : option value) {struct schema} : bool :=
  match schema with
  | ZString => match input with Some (VStr _) => true | _ => false end
  | ZNumber => match input with Some (VNum _) => true | _ => false end
  | ZBoolean => match input with Some (VBool _) => true | _ => false end
  | ZUnknown => true
  | ZLiteral l => match input with Some v => strictEquals v l | None => false end
  | ZUnion options => existsb (fun o => accepts o input) options
  | ZEnum values =>
      match input with
      | Some (VStr s) => existsb (EnumValue_eqb (EStr s)) values
      | _ => false
      end
  | ZArray element =>
      match input with
      | Some (VArr elems) => forallb (fun e => accepts element (Some e)) elems
      | _ => false
      end
  | ZObject shape =>
      match input with
      | Some (VObj fields) =>
          forallb (fun kv => accepts (snd kv) (get (fst kv) fields)) shape
      | Some VObjectPrototype =>
          forallb (fun kv => accepts (snd kv) (prototypeMember (fst kv))) shape
      | _ => false
      end
  | ZRecord valueType =>
      match input with
      | Some (VObj fields) =>
          forallb (fun kv => accepts valueType (Some (snd kv))) fields
      | Some VObjectPrototype => true
      | _ => false
      end
  | ZOptional inner =>
      match input with
      | None => true
      | Some _ => accepts inner input
      end
  | ZDescribe inner _ => accepts inner input
  | ZDefault inner d =>
      match input with
      | None => accepts inner (Some d)
      | Some _ => accepts inner input
      end
  end.

(** [case "enum"] of [convertParameterToZodSchema]. *)
Definition enumValidator (en : option (list EnumValue)) : ZodType :=
  match en with
  | Some (firstValue :: rest) =>
      match firstValue with
      | ENum _ => ZUnion (map ZLiteral (firstValue :: rest))
      | EStr _ => ZEnum (firstValue :: rest)
      end
  | _ => ZEnum [EStr EmptyString]
  end.

(** The tail of [convertParameterToZodSchema]: description and default. *)
Definition attachMetadata (desc : option string) (dflt : option value)
  (schema : ZodType) : ZodType :=
  let schema := match desc with
                | Some (String c d) => ZDescribe schema (String c d)
                | _ => schema
                end in
  match dflt with
  | Some v => ZDefault schema v
  | None => schema
  end.

(** The body of the loop of [convertParametersToZodSchema]. *)
Definition optionalUnlessRequired (req : option bool) (schema : ZodType) : ZodType :=
  if truthy_bool req then schema else ZOptional schema.

(** [convertParameterToZodSchema]; the inner [map] is
    [convertParametersToZodSchema] on [param.properties]. *)
Fixpoint convertParameterToZodSchema (param : ParameterConfig) : ZodType :=
  match param with
  | mkParameterConfig ty desc _ dflt en it props =>
      let schema :=
        if type_is ty "string" then ZString
        else if type_is ty "number" then ZNumber
        else if type_is ty "boolean" then ZBoolean
        else if type_is ty "array" then
          match it with
          | Some i => ZArray (convertParameterToZodSchema i)
          | None => ZArray ZString
          end
        else if type_is ty "object" then
          match props with
          | Some ps =>
              ZObject
                (map (fun np =>
                        (fst np,
                         optionalUnlessRequired (required (snd np))
                           (convertParameterToZodSchema (snd np)))) ps)
          | None => ZRecord ZUnknown
          end
        else if type_is ty "enum" then enumValidator en
        else ZString in
      attachMetadata desc dflt schema
  end.

(** [convertParametersToZodSchema]: the validator of each named
    parameter, optional unless the parameter is required. *)
Definition convertParametersToZodSchema
  (parameters : list (string * ParameterConfig)) : list (string * ZodType) :=
  map (fun np =>
         (fst np,
          optionalUnlessRequired (required (snd np))
            (convertParameterToZodSchema (snd np)))) parameters.

(** ** Validation of a declaration's parameters *)

(** The double quote that the error messages put around names. *)
Definition DQ : string := String (ascii_of_nat 34) EmptyString.

Definition quoted (s : string) : string := DQ ++ s ++ DQ.

Definition validTypes : list string :=
  ["string"; "number"; "boolean"; "array"; "object"; "enum"].

(** [xs.includes(x)] *)
Definition includes (xs : list string) (x : string) : bool :=
  existsb (String.eqb x) xs.

(** [t] inside a template literal; an absent value is not reached. *)
Definition shown (t : option string) : string :=
  match t with
  | Some s => s
  | None => "undefined"
  end.

(** [!param.enum || !Array.isArray(param.enum) || param.enum.length === 0] *)
Definition enumMissing (en : option (list EnumValue)) : bool :=
  match en with
  | Some (_ :: _) => false
  | _ => true
  end.

(** Sequencing of checks that return an error message or [null]: the
    first message is returned. *)
Definition orElse (check : option string) (next : option string) : option string :=
  match check with
  | Some message => Some message
  | None => next
  end.

Notation "c1 ;; c2" := (orElse c1 c2) (at level 61, right associativity).

(** [if (param.type === "enum") { if (...) return ... }] *)
Definition checkEnum (param : ParameterConfig) (path : string) : option string :=
  if type_is (type param) "enum" && enumMissing (enum param) then
    Some ("Parameter " ++ quoted path ++ " of type " ++ quoted "enum"
          ++ " must have a non-empty enum array")
  else None.

Section Nested.
(** The recursive call [validateNestedParameter(_, _)]. *)
Variable recur : ParameterConfig -> string -> option string.

(** The loop over [Object.entries(param.properties)]. *)
Fixpoint checkProperties (path : string) (ps : list (string * ParameterConfig))
  : option string :=
  match ps with
  | [] => None
  | (nestedName, nestedParam) :: rest =>
      (if negb (truthy_string (type nestedParam)) then
         Some ("Nested parameter " ++ quoted nestedName ++ " in " ++ quoted path
               ++ " is missing type property")
       else None) ;;
      (if negb (includes validTypes (shown (type nestedParam))) then
         Some ("Nested parameter " ++ quoted nestedName ++ " in " ++ quoted path
               ++ " has invalid type " ++ quoted (shown (type nestedParam)))
       else None) ;;
      recur nestedParam (path ++ "." ++ nestedName) ;;
      checkProperties path rest
  end.

(** The block guarded by [param.type === "array" && param.items]. *)
Definition checkItems (path : string) (item : ParameterConfig) : option string :=
  (if negb (truthy_string (type item)) then
     Some ("Items in array parameter " ++ quoted path ++ " must specify a type")
   else None) ;;
  (if negb (includes validTypes (shown (type item))) then
     Some ("Items in array parameter " ++ quoted path ++ " have invalid type "
           ++ quoted (shown (type item)))
   else None) ;;
  recur item (path ++ " items").
End Nested.

(** [validateNestedParameter] *)
Fixpoint validateNestedParameter (param : ParameterConfig) (path : string)
  {struct param} : option string :=
  match param with
  | mkParameterConfig ty desc req dflt en it props =>
      checkEnum (mkParameterConfig ty desc req dflt en it props) path ;;
      (if type_is ty "object" then
         match props with
         | Some ps => checkProperties validateNestedParameter path ps
         | None => None
         end
       else None) ;;
      (if type_is ty "array" then
         match it with
         | Some item => checkItems validateNestedParameter path item
         | None => None
         end
       else None)
  end.

(** The body of the loop of [validateToolConfig] over
    [Object.entries(toolConfig.parameters)]; after the two checks of the
    type tag it repeats the text of [validateNestedParameter]. *)
Definition validateParameter (paramName : string) (param : ParameterConfig)
  : option string :=
  (if negb (truthy_string (type param)) then
     Some ("Parameter " ++ quoted paramName ++ " is missing type property")
   else None) ;;
  (if negb (includes validTypes (shown (type param))) then
     Some ("Parameter " ++ quoted paramName ++ " has invalid type "
           ++ quoted (shown (type param)))
   else None) ;;
  checkEnum param paramName ;;
  (if type_is (type param) "object" then
     match properties param with
     | Some ps => checkProperties validateNestedParameter paramName ps
     | None => None
     end
   else None) ;;
  (if type_is (type param) "array" then
     match items param with
     | Some item => checkItems validateNestedParameter paramName item
     | None => None
     end
   else None).

Fixpoint validateParameters (parameters : list (string * ParameterConfig))
  : option string :=
  match parameters with
  | [] => None
  | (paramName, param) :: rest =>
      validateParameter paramName param ;; validateParameters rest
  end.

End Schema.

(* ===================================================================== *)
(** * Declarations and their merge *)
(* ===================================================================== *)

Module Config.
Import JS Schema.

(** [interface ToolConfig] *)
Record ToolConfig : Type :=
  mkToolConfig {
    tool_name : option string;
    tool_description : option string;
    tool_prompt : option string;
    tool_optional : option bool;
    tool_parameters : option (list (string * ParameterConfig)) }.

(** A value of [string | ToolConfig] in the object form of [tools]. *)
Inductive ToolEntry : Type :=
| Flat (description : string)
| Full (config : ToolConfig).

(** [tools?: Record<string, string | ToolConfig> | string] *)
Inductive Tools : Type :=
| ToolsString (names : string)
| ToolsObject (entries : list (string * ToolEntry)).

Inductive ToolMode : Type := sequential | situational.

(** [interface PromptConfig] *)
Record PromptConfig : Type :=
  mkPromptConfig {
    prompt : option string;
    context : option string;
    tools : option Tools;
    toolMode : option ToolMode;
    description : option string;
    disabled : option bool;
    name : option string;
    parameters : option (list (string * ParameterConfig)) }.

(** [interface DevToolsConfig] *)
Definition DevToolsConfig : Type := list (string * PromptConfig).

(** Truthiness of [tools]: [undefined] and the empty string are falsy. *)
Definition truthy_tools (t : option Tools) : bool :=
  match t with
  | None => false
  | Some (ToolsString EmptyString) => false
  | Some _ => true
  end.

(** [typeof t === "string" ? Object.fromEntries(t.split(",").map((t) =>
    [t.trim(), ""])) : t] *)
Definition toObject (t : Tools) : list (string * ToolEntry) :=
  match t with
  | ToolsString s => fromEntries (map (fun n => (n, Flat EmptyString)) (trimmedNames s))
  | ToolsObject entries => entries
  end.

(** [{ ...a, ...b }] on two tool records. *)
Definition spreadToolConfig (a b : ToolConfig) : ToolConfig :=
  mkToolConfig
    (spread (tool_name a) (tool_name b))
    (spread (tool_description a) (tool_description b))
    (spread (tool_prompt a) (tool_prompt b))
    (spread (tool_optional a) (tool_optional b))
    (spread (tool_parameters a) (tool_parameters b)).

(** The body of the loop of [mergeTools] over [Object.entries(sourceObj)]:
    a deep merge when [key in result] and both values are objects, the
    source value otherwise. *)
Definition mergeEntry (result : list (string * ToolEntry)) (key : string)
  (value : ToolEntry) : list (string * ToolEntry) :=
  match lookup key result, value with
  | Some (Full existing), Full incoming =>
      assign key (Full (spreadToolConfig existing incoming)) result
  | _, _ => assign key value result
  end.

(** [mergeTools] *)
Definition mergeTools (targetTools sourceTools : option Tools) : option Tools :=
  if negb (truthy_tools targetTools) && negb (truthy_tools sourceTools) then None
  else if negb (truthy_tools targetTools) then sourceTools
  else if negb (truthy_tools sourceTools) then targetTools
  else
    match targetTools, sourceTools with
    | Some (ToolsString t), Some (ToolsString s) =>
        Some (ToolsString
                (join ", " (Set_from (trimmedNames t ++ trimmedNames s)%list)))
    | Some t, Some s =>
        Some (ToolsObject
                (fold_left (fun result kv => mergeEntry result (fst kv) (snd kv))
                   (toObject s) (toObject t)))
    | _, _ => None
    end.

(** [{ ...target[key], ...value, tools: mergeTools(target[key]?.tools,
    value?.tools) }] *)
Definition mergePrompt (existing value : PromptConfig) : PromptConfig :=
  mkPromptConfig
    (spread (prompt existing) (prompt value))
    (spread (context existing) (context value))
    (mergeTools (tools existing) (tools value))
    (spread (toolMode existing) (toolMode value))
    (spread (description existing) (description value))
    (spread (disabled existing) (disabled value))
    (spread (name existing) (name value))
    (spread (parameters existing) (parameters value)).

(** The callback of [Object.entries(source).forEach] in [mergeConfigs];
    the test [if (target[key])] is read on the own keys of [target]. *)
Definition mergeKey (target : DevToolsConfig) (key : string) (value : PromptConfig)
  : DevToolsConfig :=
  match lookup key target with
  | Some existing => assign key (mergePrompt existing value) target
  | None => assign key value target
  end.

(** [mergeConfigs]: the returned object is the updated [target]. *)
Definition mergeConfigs (target source : DevToolsConfig) : DevToolsConfig :=
  fold_left (fun target kv => mergeKey target (fst kv) (snd kv)) source target.

(** [validateToolConfig]. The read [config[toolName]] finds the own
    declaration or, failing that, a member inherited from
    [Object.prototype]: such a member is truthy and has no [parameters]. *)
Definition validateToolConfig (config : DevToolsConfig) (toolName : string)
  : option string :=
  match lookup toolName config with
  | None =>
      if isInherited toolName then None
      else Some ("Tool " ++ quoted toolName ++ " not found in configuration")
  | Some toolConfig =>
      match parameters toolConfig with
      | Some params => validateParameters params
      | None => None
      end
  end.

End Config.

(* ===================================================================== *)
(** * Prompt text: the tools section and the template *)
(* ===================================================================== *)

Module Prompt.
Import JS.

(** [interface ToolItem] *)
Record ToolItem : Type :=
  mkToolItem {
    name : string;
    description : option string;
    prompt : option string;
    optional : option bool }.

Inductive ToolMode : Type := sequential | situational.

(** The text of an optional string inside a template literal, reached
    only when the string is truthy. *)
Definition text (s : option string) : string :=
  match s with
  | Some t => t
  | None => EmptyString
  end.

(** The statements that follow the name of a tool in both loops of
    [appendFormattedTools], each one an update of [resultText]. *)
Definition appendTool (resultText : string) (tool : ToolItem) : string :=
  let hasPrompt := truthy_string (prompt tool) in
  let hasDescription := truthy_string (description tool) in
  let resultText :=
    if (negb hasPrompt && hasDescription) || (hasPrompt && hasDescription)
    then resultText ++ ": " else resultText in
  let resultText :=
    if hasDescription then resultText ++ text (description tool) else resultText in
  let resultText :=
    if hasPrompt && hasDescription then resultText ++ " - " else resultText in
  let resultText :=
    if hasPrompt && negb hasDescription then resultText ++ ": " else resultText in
  let resultText :=
    if hasPrompt then resultText ++ text (prompt tool) else resultText in
  let resultText :=
    if truthy_bool (optional tool) then resultText ++ " (Optional)" else resultText in
  resultText ++ LF.

(** [for (const [index, tool] of toolsList.entries())] *)
Fixpoint sequentialLoop (index : nat) (toolsList : list ToolItem) (resultText : string)
  : string :=
  match toolsList with
  | [] => resultText
  | tool :: rest =>
      sequentialLoop (S index) rest
        (appendTool (resultText ++ string_of_nat (index + 1) ++ ". " ++ name tool) tool)
  end.

(** [for (const tool of toolsList)] *)
Fixpoint situationalLoop (toolsList : list ToolItem) (resultText : string) : string :=
  match toolsList with
  | [] => resultText
  | tool :: rest =>
      situationalLoop rest (appendTool (resultText ++ "- " ++ name tool) tool)
  end.

Definition sequentialIntro : string :=
  "If all required user input/feedback is acquired or if no input/feedback is needed, execute this exact sequence of tools to complete this task:"
  ++ LF ++ LF.

Definition situationalIntro : string :=
  "Use these tools as needed to complete the user's request:" ++ LF ++ LF.

Definition nextSteps : string :=
  LF ++ "After using each tool, return a 'Next Steps' section with a list of the next steps to take / remaining tools to invoke along with each tool's prompt/description and 'optional' flag if present.".

(** [appendFormattedTools] *)
Definition appendFormattedTools (baseText : string) (toolsList : list ToolItem)
  (toolMode : option ToolMode) : string :=
  match toolsList with
  | [] => baseText
  | _ :: _ =>
      let resultText := baseText ++ LF ++ LF ++ "## Available Tools" ++ LF in
      let resultText :=
        match toolMode with
        | Some sequential => sequentialLoop 0 toolsList (resultText ++ sequentialIntro)
        | _ => situationalLoop toolsList (resultText ++ situationalIntro)
        end in
      resultText ++ nextSteps
  end.

(** ** The template *)

(** The longest prefix without a closing brace, and what follows it. *)
Fixpoint spanName (s : string) : string * string :=
  match s with
  | EmptyString => (EmptyString, EmptyString)
  | String c s' =>
      if Ascii.eqb c "}"%char then (EmptyString, s)
      else let (body, rest) := spanName s' in (String c body, rest)
  end.

(** A match of [/\{\{\s*([^}]+)\s*\}\}/] anchored at the start of [s]: the
    text between the braces and the text after the match. White space is
    not a closing brace, so whatever the two [\s*] take, the match covers
    [{{], the longest run of characters other than [}] (one at least) and
    [}}] right after it. *)
Definition matchAt (s : string) : option (string * string) :=
  match s with
  | String c1 (String c2 s1) =>
      if Ascii.eqb c1 "{"%char && Ascii.eqb c2 "{"%char then
        match spanName s1 with
        | (String c body, String d1 (String d2 rest)) =>
            if Ascii.eqb d1 "}"%char && Ascii.eqb d2 "}"%char
            then Some (String c body, rest)
            else None
        | _ => None
        end
      else None
  | _ => None
  end.

Fixpoint lastChar (c : ascii) (s : string) : string :=
  match s with
  | EmptyString => String c EmptyString
  | String c' s' => lastChar c' s'
  end.

(** The capture group of a match with [body] between the braces: the
    leading [\s*] is greedy and gives back one character only when the
    whole body is white space. *)
Definition captured (body : string) : string :=
  match trimStart body, body with
  | EmptyString, String c s => lastChar c s
  | group, _ => group
  end.

(** The successive matches of the global regular expression in [s], with
    the characters between them. *)
Inductive Piece : Type :=
| Unmatched (c : ascii)
| Matched (whole : string) (paramName : string).

Definition inspect {A : Type} (a : A) : {b : A | a = b} := exist _ a eq_refl.

Lemma spanName_length (s : string) :
  String.length (fst (spanName s)) + String.length (snd (spanName s)) = String.length s.
Proof.
  induction s as [|c s IH]; simpl; [reflexivity|].
  destruct (Ascii.eqb c "}"); simpl; [reflexivity|].
  destruct (spanName s) as [body rest]; simpl in *. lia.
Qed.

Lemma matchAt_shorter (s body rest : string) :
  matchAt s = Some (body, rest) -> String.length rest < String.length s.
Proof.
  unfold matchAt. intros H.
  destruct s as [|c1 [|c2 s1]]; try discriminate.
  destruct (Ascii.eqb c1 "{" && Ascii.eqb c2 "{"); [|discriminate].
  pose proof (spanName_length s1) as L.
  destruct (spanName s1) as [[|c b] [|d1 [|d2 r]]]; try discriminate.
  destruct (Ascii.eqb d1 "}" && Ascii.eqb d2 "}"); [|discriminate].
  injection H as <- <-. simpl in *. lia.
Qed.

Equations scan (s : string) : list Piece by wf (String.length s) lt :=
  scan EmptyString := [];
  scan (String c s') with inspect (matchAt (String c s')) := {
    | exist _ (Some (body, rest)) _ :=
        Matched ("{{" ++ body ++ "}}") (captured body) :: scan rest;
    | exist _ None _ := Unmatched c :: scan s' }.
Next Obligation.
  match goal with
  | H : _ = Some (?b, ?r) |- _ => exact (matchAt_shorter (String c s') b r H)
  end.
Qed.

(** The callback given to [template.replace]: the test is
    [trimmedName in params], which own properties and inherited members
    both pass, and the value is read with [params[trimmedName]]. *)
Definition replacer (params : list (string * value)) (usedParams : list string)
  (whole paramName : string) : string * list string :=
  let trimmedName := trim paramName in
  if hasProperty trimmedName params then
    match get trimmedName params with
    | Some v => (toString v, Set_add trimmedName usedParams)
    | None => ("undefined", Set_add trimmedName usedParams)
    end
  else (whole, usedParams).

(** [template.replace(regexp, callback)]: the callback runs on the matches
    from left to right, the other characters are copied. *)
Fixpoint replacePieces (params : list (string * value)) (pieces : list Piece)
  (usedParams : list string) : string * list string :=
  match pieces with
  | [] => (EmptyString, usedParams)
  | Unmatched c :: rest =>
      let (out, used) := replacePieces params rest usedParams in
      (String c out, used)
  | Matched whole paramName :: rest =>
      let (replacement, used) := replacer params usedParams whole paramName in
      let (out, used') := replacePieces params rest used in
      (replacement ++ out, used')
  end.

(** The object [{ result, usedParams }]. *)
Record Processed : Type :=
  mkProcessed { result : string; usedParams : list string }.

(** [processTemplate]; an [undefined] or [null] template is [None]. *)
Definition processTemplate (template : option string) (params : list (string * value))
  : Processed :=
  match template with
  | None => mkProcessed EmptyString []
  | Some template =>
      match params with
      | [] => mkProcessed template []
      | _ :: _ =>
          let (result, usedParams) := replacePieces params (scan template) [] in
          mkProcessed result usedParams
      end
  end.

End Prompt.

(* ===================================================================== *)
(** * Properties of the parameter compilers *)
(* ===================================================================== *)

Module SchemaFacts.
Import JS Schema.

(** ** Induction over nested shapes *)

Section NestedInduction.
Variable P : ParameterConfig -> Prop.
Hypothesis step :
  forall ty desc req dflt en it props,
    (forall i, it = Some i -> P i) ->
    (forall ps, props = Some ps -> Forall (fun np => P (snd np)) ps) ->
    P (mkParameterConfig ty desc req dflt en it props).

Lemma ParameterConfig_nested_ind : forall p, P p.
Proof.
  fix IH 1. intros [ty desc req dflt en it props]. apply step.
  - destruct it as [i|]; intros j Hj; [|discriminate].
    injection Hj as <-. apply IH.
  - destruct props as [ps|]; intros qs Hqs; [|discriminate].
    injection Hqs as <-. revert ps. fix IHps 1.
    intros [|[n q] ps]; constructor; [apply IH | apply IHps].
Qed.
End NestedInduction.

(** ** Unfolding of the compilers on a given tag *)

Lemma type_is_Some (t tag : string) : type_is (Some t) tag = String.eqb t tag.
Proof. reflexivity. Qed.

Lemma copyMetadata_type desc dflt s :
  schema_type (copyMetadata desc dflt s) = schema_type s.
Proof. destruct desc as [[|c d]|], dflt; reflexivity. Qed.

Lemma copyMetadata_enum desc dflt s :
  schema_enum (copyMetadata desc dflt s) = schema_enum s.
Proof. destruct desc as [[|c d]|], dflt; reflexivity. Qed.

Lemma copyMetadata_items desc dflt s :
  schema_items (copyMetadata desc dflt s) = schema_items s.
Proof. destruct desc as [[|c d]|], dflt; reflexivity. Qed.

Lemma copyMetadata_properties desc dflt s :
  schema_properties (copyMetadata desc dflt s) = schema_properties s.
Proof. destruct desc as [[|c d]|], dflt; reflexivity. Qed.

Lemma copyMetadata_required desc dflt s :
  schema_required (copyMetadata desc dflt s) = schema_required s.
Proof. destruct desc as [[|c d]|], dflt; reflexivity. Qed.

Lemma copyMetadata_additionalProperties desc dflt s :
  schema_additionalProperties (copyMetadata desc dflt s) = schema_additionalProperties s.
Proof. destruct desc as [[|c d]|], dflt; reflexivity. Qed.

Lemma copyMetadata_default desc dflt s :
  schema_default s = None -> schema_default (copyMetadata desc dflt s) = dflt.
Proof. destruct desc as [[|c d]|], dflt; simpl; auto. Qed.

Lemma copyMetadata_description desc dflt s :
  schema_description s = None ->
  schema_description (copyMetadata desc dflt s)
  = if truthy_string desc then desc else None.
Proof. destruct desc as [[|c d]|], dflt; simpl; auto. Qed.

Lemma attachMetadata_present desc dflt z v :
  accepts (attachMetadata desc dflt z) (Some v) = accepts z (Some v).
Proof. destruct desc as [[|c d]|], dflt; reflexivity. Qed.

Lemma attachMetadata_absent desc z :
  accepts (attachMetadata desc None z) None = accepts z None.
Proof. destruct desc as [[|c d]|]; reflexivity. Qed.

Lemma json_of_enum p :
  type p = Some "enum" ->
  convertParameterToJsonSchema p
  = copyMetadata (description p) (default p) (enumSchema (enum p) emptySchema).
Proof. destruct p; simpl; intros ->; reflexivity. Qed.

Lemma zod_of_enum p :
  type p = Some "enum" ->
  convertParameterToZodSchema p
  = attachMetadata (description p) (default p) (enumValidator (enum p)).
Proof. destruct p; simpl; intros ->; reflexivity. Qed.

(** The two compilers call the compilers of a mapping on the properties
    of an object shape. *)
Lemma json_of_object p ps :
  type p = Some "object" ->
  properties p = Some ps ->
  let nestedSchema := convertParametersToJsonSchema ps in
  convertParameterToJsonSchema p
  = copyMetadata (description p) (default p)
      (let schema := set_type "object" emptySchema in
       let schema := match schema_properties nestedSchema with
                     | Some nested => set_properties nested schema
                     | None => schema
                     end in
       match schema_required nestedSchema with
       | Some (r :: rs) => set_required (r :: rs) schema
       | _ => schema
       end).
Proof. destruct p; simpl; intros -> ->; reflexivity. Qed.

Lemma zod_of_object p ps :
  type p = Some "object" ->
  properties p = Some ps ->
  convertParameterToZodSchema p
  = attachMetadata (description p) (default p)
      (ZObject (convertParametersToZodSchema ps)).
Proof. destruct p; simpl; intros -> ->; reflexivity. Qed.


(** ** Acceptance by the enum validators *)

Lemma strictEquals_spec v e : strictEquals v e = true <-> v = value_of_enum e.
Proof.
  destruct v, e; simpl; split; intros H; try discriminate.
  - apply Z.eqb_eq in H. now subst.
  - injection H as ->. apply Z.eqb_refl.
  - apply String.eqb_eq in H. now subst.
  - injection H as ->. apply String.eqb_refl.
Qed.

Lemma EnumValue_eqb_spec a b : EnumValue_eqb a b = true <-> a = b.
Proof.
  destruct a, b; simpl; split; intros H; try discriminate.
  - apply Z.eqb_eq in H. now subst.
  - injection H as ->. apply Z.eqb_refl.
  - apply String.eqb_eq in H. now subst.
  - injection H as ->. apply String.eqb_refl.
Qed.

Lemma accepts_literals (l : list EnumValue) (input : option value) :
  accepts (ZUnion (map ZLiteral l)) input = true <->
  exists e v, In e l /\ input = Some v /\ v = value_of_enum e.
Proof.
  simpl. rewrite existsb_exists. split.
  - intros (z & Hz & Hacc). apply in_map_iff in Hz as (e & <- & He).
    simpl in Hacc. destruct input as [v|]; [|discriminate].
    exists e, v. rewrite <- strictEquals_spec. auto.
  - intros (e & v & He & -> & Hv). exists (ZLiteral e). split.
    + now apply in_map.
    + simpl. now apply strictEquals_spec.
Qed.

Lemma accepts_enum (l : list EnumValue) (input : option value) :
  accepts (ZEnum l) input = true <->
  exists s, In (EStr s) l /\ input = Some (VStr s).
Proof.
  simpl. split.
  - destruct input as [[| | |s| | | |]|]; try discriminate.
    rewrite existsb_exists. intros (e & He & Heq).
    apply EnumValue_eqb_spec in Heq. subst e. eauto.
  - intros (s & Hs & ->). rewrite existsb_exists.
    exists (EStr s). split; [assumption | now apply EnumValue_eqb_spec].
Qed.

(** ** The cases of the validator test suite *)

Definition shape (ty : string) (req : option bool) : ParameterConfig :=
  mkParameterConfig (Some ty) None req None None None None.

Definition objectShape (req : option bool) (ps : list (string * ParameterConfig))
  : ParameterConfig :=
  mkParameterConfig (Some "object") None req None None None (Some ps).

Definition enumShape (req : option bool) (values : list EnumValue) : ParameterConfig :=
  mkParameterConfig (Some "enum") None req None (Some values) None None.

(** "should convert object parameter to Zod schema" *)
Example object_parameter_cases :
  let schema :=
    convertParameterToZodSchema
      (objectShape None [("name", shape "string" (Some true)); ("age", shape "number" None)]) in
  accepts schema (Some (VObj [("name", VStr "John"); ("age", VNum 30)])) = true /\
  accepts schema (Some (VObj [("name", VStr "John")])) = true /\
  accepts schema (Some (VObj [("age", VNum 30)])) = false.
Proof. repeat split. Qed.

(** "should convert numeric enum parameter to Zod schema" *)
Example numeric_enum_cases :
  let schema := convertParameterToZodSchema (enumShape None [ENum 1; ENum 2; ENum 3]) in
  accepts schema (Some (VNum 1)) = true /\ accepts schema (Some (VNum 4)) = false.
Proof. repeat split. Qed.

(** "should handle nested object structures" *)
Example nested_structure_cases :
  let display :=
    objectShape None
      [("theme", enumShape (Some true) [EStr "light"; EStr "dark"; EStr "system"]);
       ("fontSize", mkParameterConfig (Some "number") None None (Some (VNum 16))
                      None None None)] in
  let settings :=
    objectShape (Some true)
      [("display", display);
       ("notifications", mkParameterConfig (Some "boolean") None None
                           (Some (VBool true)) None None None)] in
  let schema := ZObject (convertParametersToZodSchema [("settings", settings)]) in
  accepts schema
    (Some (VObj [("settings",
                  VObj [("display", VObj [("theme", VStr "dark"); ("fontSize", VNum 14)]);
                        ("notifications", VBool false)])])) = true /\
  accepts schema
    (Some (VObj [("settings",
                  VObj [("display", VObj [("fontSize", VNum 14)]);
                        ("notifications", VBool true)])])) = false.
Proof. repeat split. Qed.

(** A required numeric enum [level] with values 1, 2, 3. *)
Example required_level_cases :
  let parameters := [("level", enumShape (Some true) [ENum 1; ENum 2; ENum 3])] in
  let wire := convertParametersToJsonSchema parameters in
  let schema := ZObject (convertParametersToZodSchema parameters) in
  schema_type wire = Some "object" /\
  schema_required wire = Some ["level"] /\
  accepts schema (Some (VObj [("level", VNum 2)])) = true /\
  accepts schema (Some (VObj [("level", VNum 4)])) = false /\
  accepts schema (Some (VObj [])) = false.
Proof. repeat split. Qed.


(** ** Enum shapes *)

(** Outside the data model, whose enum lists hold values of one kind:
    with the mixed list [[1; "a"]] the first value is a number, so the
    validator is the union of the literals of the whole list and accepts
    the string ["a"]. *)
Lemma numeric_enum_validator_accepts_listed_string :
  let p := mkParameterConfig (Some "enum") None None None
             (Some [ENum 1; EStr "a"]) None None in
  schema_type (convertParameterToJsonSchema p) = Some "number" /\
  ~ (forall v : value,
       accepts (convertParameterToZodSchema p) (Some v) = true <->
       exists n, In (ENum n) [ENum 1; EStr "a"] /\ v = VNum n).
Proof.
  split; [reflexivity|].
  intros H. destruct (proj1 (H (VStr "a")) eq_refl) as (n & _ & Hn).
  discriminate Hn.
Qed.

(** C1. For an enum shape with the non-empty value list
    [first :: rest], both compilers choose the kind from [first], and the
    wire schema's [enum] is the declared list. If [first] is a number the
    wire type is ["number"] and the validator accepts exactly the listed
    literals: exactly the listed numeric literals when every listed value
    is a number, as the data model has it. Otherwise the wire type is
    ["string"] and the validator accepts exactly the listed string
    literals. *)
Theorem enum_kind_chosen_from_first_value :
  forall (p : ParameterConfig) (first : EnumValue) (rest : list EnumValue),
    type p = Some "enum" ->
    enum p = Some (first :: rest) ->
    let wire := convertParameterToJsonSchema p in
    let validator := convertParameterToZodSchema p in
    schema_enum wire = Some (first :: rest) /\
    match first with
    | ENum _ =>
        schema_type wire = Some "number" /\
        (forall v, accepts validator (Some v) = true <->
                   exists e, In e (first :: rest) /\ v = value_of_enum e) /\
        ((forall e, In e (first :: rest) -> exists n, e = ENum n) ->
         forall v, accepts validator (Some v) = true <->
                   exists n, In (ENum n) (first :: rest) /\ v = VNum n)
    | EStr _ =>
        schema_type wire = Some "string" /\
        (forall v, accepts validator (Some v) = true <->
                   exists s, In (EStr s) (first :: rest) /\ v = VStr s)
    end.
Proof.
  intros p first rest Hty Hen wire validator. subst wire validator.
  rewrite (json_of_enum p Hty), (zod_of_enum p Hty), Hen.
  rewrite copyMetadata_enum, copyMetadata_type.
  assert (Hall : forall n v,
             first = ENum n ->
             accepts (attachMetadata (description p) (default p)
                        (enumValidator (Some (first :: rest)))) (Some v) = true <->
             exists e, In e (first :: rest) /\ v = value_of_enum e).
  { intros n v ->. rewrite attachMetadata_present.
    unfold enumValidator. rewrite accepts_literals. split.
    - intros (e & w & He & Hw & Hv). injection Hw as <-. eauto.
    - intros (e & He & Hv). eauto. }
  destruct first as [n|s].
  - split; [reflexivity|]. split; [reflexivity|]. split.
    + intros v. apply (Hall n v eq_refl).
    + intros Hnum v. rewrite (Hall n v eq_refl). split.
      * intros (e & He & ->). destruct (Hnum e He) as (m & ->). eauto.
      * intros (m & Hm & ->). exists (ENum m). auto.
  - split; [reflexivity|]. split; [reflexivity|].
    intros v. rewrite attachMetadata_present. unfold enumValidator.
    rewrite accepts_enum. split.
    + intros (t & Ht & Hv). injection Hv as ->. eauto.
    + intros (t & Ht & ->). eauto.
Qed.

Lemma enum_kind_chosen_from_first_value_witness :
  let p := mkParameterConfig (Some "enum") None (Some true) None
             (Some [ENum 1; ENum 2; ENum 3]) None None in
  schema_type (convertParameterToJsonSchema p) = Some "number" /\
  (forall v, accepts (convertParameterToZodSchema p) (Some v) = true <->
             exists n, In (ENum n) [ENum 1; ENum 2; ENum 3] /\ v = VNum n).
Proof.
  intros p.
  pose proof (enum_kind_chosen_from_first_value p (ENum 1) [ENum 2; ENum 3]
                eq_refl eq_refl) as (_ & Hty & _ & Hnum).
  split; [exact Hty|].
  apply Hnum. intros e [<-|[<-|[<-|[]]]]; eauto.
Defined.

(** C6. For an enum shape whose value list is absent or empty the wire
    compiler emits type ["string"] with the empty [enum] list (and no
    other structural key), and the validator accepts the empty string and
    rejects every other value. Both compilers are total functions, so
    neither raises. *)
Theorem empty_enum_degenerate :
  forall p : ParameterConfig,
    type p = Some "enum" ->
    enum p = None \/ enum p = Some [] ->
    let wire := convertParameterToJsonSchema p in
    (schema_type wire = Some "string" /\
     schema_enum wire = Some [] /\
     schema_items wire = None /\
     schema_properties wire = None /\
     schema_required wire = None /\
     schema_additionalProperties wire = None) /\
    (forall v : value,
       accepts (convertParameterToZodSchema p) (Some v) = true <->
       v = VStr EmptyString).
Proof.
  intros p Hty Hen wire. subst wire.
  rewrite (json_of_enum p Hty), (zod_of_enum p Hty).
  rewrite copyMetadata_type, copyMetadata_enum, copyMetadata_items,
    copyMetadata_properties, copyMetadata_required,
    copyMetadata_additionalProperties.
  assert (Hs : enumSchema (enum p) emptySchema
               = set_enum [] (set_type "string" emptySchema)
               /\ enumValidator (enum p) = ZEnum [EStr EmptyString]).
  { destruct Hen as [-> | ->]; split; reflexivity. }
  destruct Hs as [-> ->]. split.
  - repeat split; reflexivity.
  - intros v. rewrite attachMetadata_present, accepts_enum. split.
    + intros (s & [Hs|[]] & Hv). injection Hs as <-. now injection Hv as ->.
    + intros ->. exists EmptyString. split; [now left | reflexivity].
Qed.

Lemma empty_enum_degenerate_witness :
  let p := mkParameterConfig (Some "enum") (Some "level") None None
             (Some []) None None in
  schema_enum (convertParameterToJsonSchema p) = Some [] /\
  accepts (convertParameterToZodSchema p) (Some (VStr EmptyString)) = true /\
  accepts (convertParameterToZodSchema p) (Some (VStr "a")) = false.
Proof.
  intros p.
  pose proof (empty_enum_degenerate p eq_refl (or_intror eq_refl))
    as ((_ & Hen & _) & Hacc).
  split; [exact Hen|]. split.
  - apply Hacc. reflexivity.
  - destruct (accepts (convertParameterToZodSchema p) (Some (VStr "a"))) eqn:E;
      [|reflexivity].
    apply Hacc in E. discriminate E.
Defined.

(** ** Required properties *)

(** The [required] list of a wire schema, empty when the key is absent. *)
Definition requiredList (wire : JsonSchema) : list string :=
  match schema_required wire with
  | Some names => names
  | None => []
  end.

(** The validator stored under a parameter's name. *)
Definition propertyValidator (p : ParameterConfig) : ZodType :=
  optionalUnlessRequired (required p) (convertParameterToZodSchema p).

Lemma requiredNames_spec parameters n :
  In n (requiredNames parameters) <->
  exists p, In (n, p) parameters /\ required p = Some true.
Proof.
  unfold requiredNames. rewrite in_map_iff. split.
  - intros ([m p] & <- & H). apply filter_In in H as [Hin Hreq]. simpl in *.
    exists p. split; [assumption|].
    destruct (required p) as [[]|]; [reflexivity | discriminate | discriminate].
  - intros (p & Hin & Hreq). exists (n, p). split; [reflexivity|].
    apply filter_In. split; [assumption|]. simpl. now rewrite Hreq.
Qed.

Lemma objectSchema_required props req :
  schema_required (objectSchema props req)
  = match req with [] => None | _ :: _ => Some req end.
Proof. destruct req; reflexivity. Qed.

Lemma literals_reject_absent (l : list EnumValue) :
  accepts (ZUnion (map ZLiteral l)) None = false.
Proof.
  destruct (accepts (ZUnion (map ZLiteral l)) None) eqn:E; [|reflexivity].
  apply accepts_literals in E as (e & v & _ & H & _). discriminate H.
Qed.

(** Without a default, the validator of a shape rejects an absent input. *)
Lemma rejects_absent (p : ParameterConfig) :
  default p = None -> accepts (convertParameterToZodSchema p) None = false.
Proof.
  destruct p as [ty desc req dflt en it props]. simpl. intros ->.
  rewrite attachMetadata_absent.
  repeat match goal with
         | |- context [if type_is ty ?tag then _ else _] =>
             destruct (type_is ty tag)
         end; try reflexivity.
  - destruct it; reflexivity.
  - destruct props; reflexivity.
  - destruct en as [[|[n|s] rest]|]; try reflexivity.
    apply (literals_reject_absent (ENum n :: rest)).
Qed.

Lemma convertParametersToZodSchema_accepts parameters fields :
  accepts (ZObject (convertParametersToZodSchema parameters)) (Some (VObj fields))
  = forallb (fun np => accepts (propertyValidator (snd np)) (get (fst np) fields))
      parameters.
Proof.
  simpl. unfold convertParametersToZodSchema.
  induction parameters as [|[n p] rest IH]; simpl; [reflexivity|].
  now rewrite IH.
Qed.

(** C2 (as stated, refuted). A required property that declares a default
    may be missing: the validator substitutes the default and accepts. *)
Lemma required_with_default_may_be_missing :
  let parameters :=
    [("a", mkParameterConfig (Some "string") None (Some true)
             (Some (VStr "x")) None None None)] in
  requiredList (convertParametersToJsonSchema parameters) = ["a"] /\
  lookup "a" ([] : list (string * value)) = None /\
  accepts (ZObject (convertParametersToZodSchema parameters)) (Some (VObj [])) = true.
Proof. repeat split. Qed.

(** The validator reads a declared property with [input[key]], so a name
    of [Object.prototype] is never missing: an optional string property
    called [constructor] finds the inherited function and is rejected on
    an input that does not hold it. *)
Lemma inherited_member_is_not_missing :
  let parameters :=
    [("constructor", mkParameterConfig (Some "string") None None None None None None)] in
  let fields := [("x", VNum 1)] in
  lookup "constructor" fields = None /\
  get "constructor" fields = Some (VFunction "constructor") /\
  accepts (ZObject (convertParametersToZodSchema parameters)) (Some (VObj fields))
  = false.
Proof. repeat split. Qed.

(** C2 (amended). The wire schema's [required] list is exactly the names,
    in declaration order, whose shape has [required] set to true, and the
    key is omitted (never an empty array) when there is none. A property
    is missing from an input object when reading it gives [undefined]:
    the object has no own property of that name and inherits none from
    [Object.prototype]. The validator rejects an input object that misses
    a required property declaring no default, and it does not reject an
    input object for missing a property that is not required: such an
    object is accepted as soon as the other declared properties pass. *)
Theorem required_propagates :
  forall parameters : list (string * ParameterConfig),
    let wire := convertParametersToJsonSchema parameters in
    let validator := ZObject (convertParametersToZodSchema parameters) in
    (forall n, In n (requiredList wire) <->
               exists p, In (n, p) parameters /\ required p = Some true) /\
    requiredList wire
    = map fst (filter (fun np => match required (snd np) with
                                 | Some true => true
                                 | _ => false
                                 end) parameters) /\
    (schema_required wire = None <->
     forall n p, In (n, p) parameters -> required p <> Some true) /\
    schema_required wire <> Some [] /\
    (forall n p fields,
        In (n, p) parameters -> required p = Some true -> default p = None ->
        get n fields = None ->
        accepts validator (Some (VObj fields)) = false) /\
    (forall n p fields,
        In (n, p) parameters -> required p <> Some true ->
        get n fields = None ->
        (forall n' p', In (n', p') parameters -> (n', p') <> (n, p) ->
                       accepts (propertyValidator p') (get n' fields) = true) ->
        accepts validator (Some (VObj fields)) = true).
Proof.
  intros parameters wire validator. subst wire validator.
  assert (Hlist : requiredList (convertParametersToJsonSchema parameters)
                  = requiredNames parameters).
  { unfold requiredList, convertParametersToJsonSchema.
    rewrite objectSchema_required. now destruct (requiredNames parameters). }
  assert (Hkey : schema_required (convertParametersToJsonSchema parameters)
                 = match requiredNames parameters with
                   | [] => None
                   | _ :: _ => Some (requiredNames parameters)
                   end).
  { unfold convertParametersToJsonSchema. apply objectSchema_required. }
  split; [|split; [|split; [|split; [|split]]]].
  - intros n. rewrite Hlist. apply requiredNames_spec.
  - rewrite Hlist. reflexivity.
  - rewrite Hkey. split.
    + intros H n p Hin Hreq.
      assert (Hn : In n (requiredNames parameters))
        by (apply requiredNames_spec; eauto).
      destruct (requiredNames parameters); [contradiction | discriminate].
    + intros H. destruct (requiredNames parameters) as [|n rest] eqn:E;
        [reflexivity|].
      assert (Hn : In n (requiredNames parameters)) by (rewrite E; now left).
      apply requiredNames_spec in Hn as (p & Hin & Hreq).
      now destruct (H n p Hin).
  - rewrite Hkey. destruct (requiredNames parameters); discriminate.
  - intros n p fields Hin Hreq Hdef Hmiss.
    rewrite convertParametersToZodSchema_accepts.
    destruct (forallb _ parameters) eqn:E; [|reflexivity].
    rewrite forallb_forall in E. specialize (E (n, p) Hin). simpl in E.
    unfold propertyValidator, optionalUnlessRequired in E.
    rewrite Hreq, Hmiss in E. simpl in E.
    now rewrite (rejects_absent p Hdef) in E.
  - intros n p fields Hin Hreq Hmiss Hothers.
    rewrite convertParametersToZodSchema_accepts.
    apply forallb_forall. intros [n' p'] Hin'. simpl.
    destruct (string_dec n' n) as [->|Hn].
    + rewrite Hmiss. unfold propertyValidator, optionalUnlessRequired.
      destruct (truthy_bool (required p')) eqn:Hreq'; [|reflexivity].
      assert (Hne : (n, p') <> (n, p)).
      { intros Heq. injection Heq as ->.
        destruct (required p) as [[]|]; [now apply Hreq | discriminate..]. }
      specialize (Hothers n p' Hin' Hne). rewrite Hmiss in Hothers.
      unfold propertyValidator, optionalUnlessRequired in Hothers.
      now rewrite Hreq' in Hothers.
    + apply Hothers; [assumption|]. intros Heq. now injection Heq.
Qed.

Lemma required_propagates_witness :
  let parameters :=
    [("a", mkParameterConfig (Some "string") None (Some true) None None None None);
     ("b", mkParameterConfig (Some "number") None None None None None None)] in
  schema_required (convertParametersToJsonSchema parameters) = Some ["a"] /\
  accepts (ZObject (convertParametersToZodSchema parameters))
    (Some (VObj [("b", VNum 1)])) = false /\
  accepts (ZObject (convertParametersToZodSchema parameters))
    (Some (VObj [("a", VStr "x")])) = true.
Proof.
  intros parameters.
  pose proof (required_propagates parameters) as (_ & _ & _ & _ & Hrej & Hacc).
  split; [reflexivity|]. split.
  - apply (Hrej "a" (mkParameterConfig (Some "string") None (Some true) None None None None)).
    + simpl. now left.
    + reflexivity.
    + reflexivity.
    + reflexivity.
  - apply (Hacc "b" (mkParameterConfig (Some "number") None None None None None None)).
    + simpl. right. now left.
    + discriminate.
    + reflexivity.
    + intros n' p' [Heq|[Heq|[]]] Hne.
      * injection Heq as <- <-. reflexivity.
      * now destruct Hne.
Defined.

(** ** Unrecognized type tags *)

(** Not one of the six tags of [ParameterConfig]. *)
Definition unrecognized (ty : option string) : Prop :=
  forall tag, In tag validTypes -> type_is ty tag = false.

Lemma unrecognized_tags ty :
  unrecognized ty ->
  type_is ty "string" = false /\ type_is ty "number" = false /\
  type_is ty "boolean" = false /\ type_is ty "array" = false /\
  type_is ty "object" = false /\ type_is ty "enum" = false.
Proof.
  intros H. repeat split; apply H; simpl; tauto.
Qed.

(** What the two compilers do on an unrecognized tag: the validator
    compiler takes the [default] branch of its [switch]; the [switch] of
    the wire compiler has no such branch and leaves the schema without a
    [type]. *)
Lemma unrecognized_tag_compiled p :
  unrecognized (type p) ->
  convertParameterToZodSchema p
  = attachMetadata (description p) (default p) ZString /\
  convertParameterToJsonSchema p
  = copyMetadata (description p) (default p) emptySchema.
Proof.
  intros H. apply unrecognized_tags in H as (H1 & H2 & H3 & H4 & H5 & H6).
  destruct p as [ty desc req dflt en it props]. simpl in *.
  rewrite H1, H2, H3, H4, H5, H6. split; reflexivity.
Qed.

(** C5 (the code at the failing input). For the tag ["date"] the
    validator compiler falls back to the string validator, while the wire
    compiler returns a schema with no [type] at all instead of
    [{type: "string"}]. *)
Theorem unknown_tag_wire_schema_has_no_type :
  let p := mkParameterConfig (Some "date") None None None None None None in
  convertParameterToZodSchema p = ZString /\
  convertParameterToJsonSchema p = emptySchema /\
  schema_type (convertParameterToJsonSchema p) <> Some "string".
Proof.
  split; [reflexivity|]. split; [reflexivity|]. discriminate.
Qed.

(** ** Validation of declarations *)

(** The shapes a declaration declares below a parameter: the parameter
    itself, the properties of an object shape and the item shape of an
    array shape, at any depth. *)
Inductive Declared : ParameterConfig -> ParameterConfig -> Prop :=
| Declared_itself p :
    Declared p p
| Declared_property p ps n q r :
    type_is (type p) "object" = true ->
    properties p = Some ps ->
    In (n, q) ps ->
    Declared q r ->
    Declared p r
| Declared_item p i r :
    type_is (type p) "array" = true ->
    items p = Some i ->
    Declared i r ->
    Declared p r.

(** The type tag is present and one of the six recognized tags. *)
Definition recognized (p : ParameterConfig) : bool :=
  truthy_string (type p) && includes validTypes (shown (type p)).

(** An enum shape has a non-empty value list. *)
Definition enumerated (p : ParameterConfig) : bool :=
  negb (type_is (type p) "enum" && enumMissing (enum p)).

Definition sound (p : ParameterConfig) : bool :=
  recognized p && enumerated p.

Lemma orElse_None c1 c2 : c1 ;; c2 = None <-> c1 = None /\ c2 = None.
Proof.
  destruct c1; simpl; split; try tauto.
  intros H. discriminate H.
Qed.

Lemma guard_None (b : bool) (message : string) :
  (if negb b then Some message else None) = None <-> b = true.
Proof. destruct b; simpl; split; congruence. Qed.

Lemma checkEnum_None p path : checkEnum p path = None <-> enumerated p = true.
Proof.
  unfold checkEnum, enumerated.
  destruct (type_is (type p) "enum" && enumMissing (enum p)); simpl;
    split; congruence.
Qed.

Lemma validateNestedParameter_unfold p path :
  validateNestedParameter p path
  = checkEnum p path ;;
    (if type_is (type p) "object" then
       match properties p with
       | Some ps => checkProperties validateNestedParameter path ps
       | None => None
       end
     else None) ;;
    (if type_is (type p) "array" then
       match items p with
       | Some item => checkItems validateNestedParameter path item
       | None => None
       end
     else None).
Proof. destruct p; reflexivity. Qed.

#[local] Arguments includes : simpl never.

Lemma checkProperties_None recur path ps :
  checkProperties recur path ps = None <->
  Forall (fun np => recognized (snd np) = true
                    /\ recur (snd np) (path ++ "." ++ fst np) = None) ps.
Proof.
  induction ps as [|[n q] ps IH]; simpl.
  - split; [constructor | reflexivity].
  - rewrite !orElse_None, !guard_None, IH. split.
    + intros (H1 & H2 & H3 & H4). constructor; [|assumption]. simpl.
      unfold recognized. rewrite H1, H2. auto.
    + intros H. inversion H as [|? ? [Hrec Hnone] Hrest]; subst. simpl in *.
      unfold recognized in Hrec. apply andb_true_iff in Hrec as [H1 H2]. tauto.
Qed.

Lemma checkItems_None recur path item :
  checkItems recur path item = None <->
  recognized item = true /\ recur item (path ++ " items") = None.
Proof.
  unfold checkItems, recognized.
  rewrite !orElse_None, !guard_None, andb_true_iff. tauto.
Qed.

(** Below a recognized tag, [validateNestedParameter] returns [null]
    exactly when every declared shape is sound. *)
Lemma validateNestedParameter_None :
  forall p path,
    recognized p = true ->
    (validateNestedParameter p path = None <->
     forall q, Declared p q -> sound q = true).
Proof.
  induction p as [ty desc req dflt en it props IHit IHprops]
    using ParameterConfig_nested_ind.
  intros path Hrec.
  set (p := mkParameterConfig ty desc req dflt en it props) in *.
  rewrite validateNestedParameter_unfold, !orElse_None, checkEnum_None.
  change (type p) with ty. change (properties p) with props.
  change (items p) with it.
  split.
  - intros (Henum & Hprops & Hitems) q Hq.
    inversion Hq as [p0 | p0 ps n q' r Hty Hps Hin Hdecl
                    | p0 i r Hty Hi Hdecl]; subst.
    + unfold sound. now rewrite Hrec, Henum.
    + change (type p) with ty in Hty. change (properties p) with props in Hps.
      rewrite Hty, Hps in Hprops.
      apply checkProperties_None in Hprops.
      rewrite Forall_forall in Hprops.
      destruct (Hprops (n, q') Hin) as [Hrec' Hnone]. simpl in *.
      specialize (IHprops ps Hps). rewrite Forall_forall in IHprops.
      apply (IHprops (n, q') Hin (path ++ "." ++ n) Hrec'); assumption.
    + change (type p) with ty in Hty. change (items p) with it in Hi.
      rewrite Hty, Hi in Hitems.
      apply checkItems_None in Hitems as [Hrec' Hnone].
      apply (IHit i Hi (path ++ " items") Hrec'); assumption.
  - intros Hall.
    assert (Hp : sound p = true) by (apply Hall; constructor).
    unfold sound in Hp. apply andb_true_iff in Hp as [_ Henum].
    split; [assumption|]. split.
    + destruct (type_is ty "object") eqn:Hty; [|reflexivity].
      destruct props as [ps|] eqn:Hps; [|reflexivity].
      apply checkProperties_None. apply Forall_forall. intros [n q'] Hin. simpl.
      assert (Hq' : forall r, Declared q' r -> sound r = true).
      { intros r Hr. apply Hall.
        apply (Declared_property p ps n q' r); auto. }
      assert (Hrec' : recognized q' = true).
      { specialize (Hq' q' (Declared_itself q')). unfold sound in Hq'.
        now apply andb_true_iff in Hq' as [? _]. }
      split; [assumption|].
      specialize (IHprops ps eq_refl). rewrite Forall_forall in IHprops.
      apply (IHprops (n, q') Hin (path ++ "." ++ n) Hrec'). assumption.
    + destruct (type_is ty "array") eqn:Hty; [|reflexivity].
      destruct it as [i|] eqn:Hi; [|reflexivity].
      assert (Hq' : forall r, Declared i r -> sound r = true).
      { intros r Hr. apply Hall. apply (Declared_item p i r); auto. }
      assert (Hrec' : recognized i = true).
      { specialize (Hq' i (Declared_itself i)). unfold sound in Hq'.
        now apply andb_true_iff in Hq' as [? _]. }
      apply checkItems_None. split; [assumption|].
      apply (IHit i eq_refl (path ++ " items") Hrec'). assumption.
Qed.

Lemma validateParameter_None paramName p :
  validateParameter paramName p = None <->
  forall q, Declared p q -> sound q = true.
Proof.
  unfold validateParameter. rewrite orElse_None, orElse_None, !guard_None.
  rewrite <- validateNestedParameter_unfold. split.
  - intros (H1 & H2 & H3).
    apply (validateNestedParameter_None p paramName); [|assumption].
    unfold recognized. now rewrite H1, H2.
  - intros Hall.
    assert (Hp : sound p = true) by (apply Hall; constructor).
    unfold sound in Hp. apply andb_true_iff in Hp as [Hrec _].
    pose proof Hrec as Hrec'. unfold recognized in Hrec'.
    apply andb_true_iff in Hrec' as [H1 H2].
    split; [assumption|]. split; [assumption|].
    now apply validateNestedParameter_None.
Qed.

Lemma validateParameters_None parameters :
  validateParameters parameters = None <->
  forall n p q, In (n, p) parameters -> Declared p q -> sound q = true.
Proof.
  induction parameters as [|[m p] rest IH]; simpl.
  - split; [intros _ n p q [] | reflexivity].
  - rewrite orElse_None, validateParameter_None, IH. split.
    + intros [H1 H2] n p' q [Heq|Hin] Hq.
      * injection Heq as <- <-. now apply H1.
      * now apply (H2 n p').
    + intros H. split.
      * intros q Hq. apply (H m p); auto.
      * intros n p' q Hin Hq. apply (H n p'); auto.
Qed.

End SchemaFacts.

(* ===================================================================== *)
(** * Properties of the string and set helpers *)
(* ===================================================================== *)

Module JSFacts.
Import JS.

(** ** Sets in insertion order *)

Lemma Set_add_In x y s : In y (Set_add x s) <-> y = x \/ In y s.
Proof.
  unfold Set_add. destruct (existsb (String.eqb x) s) eqn:E.
  - split; [auto|]. intros [->|H]; [|assumption].
    apply existsb_exists in E as (z & Hz & Heq).
    apply String.eqb_eq in Heq. now subst.
  - rewrite in_app_iff. simpl. intuition.
Qed.

Lemma Set_add_NoDup x s : NoDup s -> NoDup (Set_add x s).
Proof.
  intros H. unfold Set_add. destruct (existsb (String.eqb x) s) eqn:E;
    [assumption|].
  apply NoDup_app; [assumption | constructor; [simpl; tauto | constructor] |].
  intros y Hy [Heq|[]]. subst y.
  assert (Hex : existsb (String.eqb x) s = true).
  { apply existsb_exists. exists x. split; [assumption | apply String.eqb_refl]. }
  congruence.
Qed.

Lemma Set_loop_In xs : forall acc y,
  In y (fold_left (fun s x => Set_add x s) xs acc) <-> In y acc \/ In y xs.
Proof.
  induction xs as [|x xs IH]; intros acc y; simpl; [tauto|].
  rewrite IH, Set_add_In. intuition.
Qed.

Lemma Set_loop_NoDup xs : forall acc,
  NoDup acc -> NoDup (fold_left (fun s x => Set_add x s) xs acc).
Proof.
  induction xs as [|x xs IH]; intros acc H; simpl; [assumption|].
  apply IH. now apply Set_add_NoDup.
Qed.

Lemma Set_from_In xs y : In y (Set_from xs) <-> In y xs.
Proof. unfold Set_from. rewrite Set_loop_In. simpl. tauto. Qed.

Lemma Set_from_NoDup xs : NoDup (Set_from xs).
Proof. apply Set_loop_NoDup. constructor. Qed.

(** ** Splitting at commas *)

Fixpoint commaFree (s : string) : bool :=
  match s with
  | EmptyString => true
  | String c s' => negb (Ascii.eqb c ","%char) && commaFree s'
  end.

Lemma split_comma_nonempty s : split_comma s <> [].
Proof.
  destruct s as [|c s]; simpl; [discriminate|].
  destruct (Ascii.eqb c ","); [discriminate|].
  destruct (split_comma s); discriminate.
Qed.

Lemma split_comma_commaFree s : Forall (fun seg => commaFree seg = true) (split_comma s).
Proof.
  induction s as [|c s IH]; simpl.
  - constructor; [reflexivity | constructor].
  - destruct (Ascii.eqb c ",") eqn:E.
    + constructor; [reflexivity | assumption].
    + destruct (split_comma s) as [|seg segs].
      * constructor; [simpl; now rewrite E | constructor].
      * inversion IH; subst. constructor; [simpl; now rewrite E | assumption].
Qed.

Lemma split_comma_single x : commaFree x = true -> split_comma x = [x].
Proof.
  induction x as [|c x IH]; simpl; [reflexivity|].
  intros H. apply andb_true_iff in H as [Hc Hx].
  apply negb_true_iff in Hc. rewrite Hc, (IH Hx). reflexivity.
Qed.

Lemma split_comma_app x y :
  commaFree x = true ->
  split_comma (x ++ String ","%char y) = x :: split_comma y.
Proof.
  induction x as [|c x IH]; simpl; [reflexivity|].
  intros H. apply andb_true_iff in H as [Hc Hx].
  apply negb_true_iff in Hc. rewrite Hc, (IH Hx). reflexivity.
Qed.

(** ** Trimming *)

Definition startsClean (s : string) : bool :=
  match s with
  | EmptyString => true
  | String c _ => negb (isSpace c)
  end.

Lemma trimStart_startsClean s : startsClean (trimStart s) = true.
Proof.
  induction s as [|c s IH]; simpl; [reflexivity|].
  destruct (isSpace c) eqn:E; [assumption|]. simpl. now rewrite E.
Qed.

Lemma trimStart_clean s : startsClean s = true -> trimStart s = s.
Proof.
  destruct s as [|c s]; simpl; [reflexivity|].
  intros H. apply negb_true_iff in H. now rewrite H.
Qed.

Lemma trimEnd_startsClean s : startsClean s = true -> startsClean (trimEnd s) = true.
Proof.
  destruct s as [|c s]; simpl; [reflexivity|].
  intros H. destruct (trimEnd s); [|assumption].
  apply negb_true_iff in H. rewrite H. simpl. now rewrite H.
Qed.

Lemma trimEnd_idempotent s : trimEnd (trimEnd s) = trimEnd s.
Proof.
  induction s as [|c s IH]; simpl; [reflexivity|].
  destruct (trimEnd s) as [|d t] eqn:E.
  - destruct (isSpace c) eqn:Hc; simpl; [reflexivity|]. now rewrite Hc.
  - change (trimEnd (String c (String d t))) with
      (match trimEnd (String d t) with
       | EmptyString => if isSpace c then EmptyString else String c EmptyString
       | u => String c u
       end).
    rewrite IH. reflexivity.
Qed.

Lemma trim_idempotent s : trim (trim s) = trim s.
Proof.
  unfold trim.
  rewrite (trimStart_clean (trimEnd (trimStart s))).
  - apply trimEnd_idempotent.
  - apply trimEnd_startsClean, trimStart_startsClean.
Qed.

Lemma trimStart_commaFree s : commaFree s = true -> commaFree (trimStart s) = true.
Proof.
  induction s as [|c s IH]; simpl; [reflexivity|].
  intros H. destruct (isSpace c); [|assumption].
  apply andb_true_iff in H as [_ H]. auto.
Qed.

Lemma trimEnd_commaFree s : commaFree s = true -> commaFree (trimEnd s) = true.
Proof.
  induction s as [|c s IH]; simpl; [reflexivity|].
  intros H. apply andb_true_iff in H as [Hc Hs]. specialize (IH Hs).
  destruct (trimEnd s) as [|d t].
  - destruct (isSpace c); [reflexivity|]. simpl. now rewrite Hc.
  - simpl in *. now rewrite Hc, IH.
Qed.

Lemma trim_commaFree s : commaFree s = true -> commaFree (trim s) = true.
Proof. intros H. now apply trimEnd_commaFree, trimStart_commaFree. Qed.

(** ** Names written with [join(", ")] and read back *)

(** What [trimmedNames] returns: trimmed strings without a comma. *)
Definition isName (x : string) : Prop := commaFree x = true /\ trim x = x.

Lemma trimmedNames_are_names s : Forall isName (trimmedNames s).
Proof.
  unfold trimmedNames. apply Forall_forall. intros x Hx.
  apply in_map_iff in Hx as (seg & <- & Hseg).
  pose proof (split_comma_commaFree s) as H.
  rewrite Forall_forall in H. split.
  - apply trim_commaFree. now apply H.
  - apply trim_idempotent.
Qed.

Lemma trimmedNames_after_space s : trimmedNames (String " "%char s) = trimmedNames s.
Proof.
  unfold trimmedNames. simpl.
  pose proof (split_comma_nonempty s) as H.
  destruct (split_comma s) as [|seg segs]; [contradiction|reflexivity].
Qed.

Lemma trimmedNames_app x rest :
  commaFree x = true ->
  trimmedNames (x ++ String ","%char rest) = trim x :: trimmedNames rest.
Proof. intros H. unfold trimmedNames. now rewrite (split_comma_app x rest H). Qed.

Lemma trimmedNames_join x xs :
  Forall isName (x :: xs) -> trimmedNames (join ", " (x :: xs)) = x :: xs.
Proof.
  revert x. induction xs as [|y ys IH]; intros x H.
  - inversion H as [|? ? [Hc Ht] _]; subst.
    unfold trimmedNames. change (join ", " [x]) with x.
    rewrite (split_comma_single x Hc). simpl. now rewrite Ht.
  - inversion H as [|? ? [Hc Ht] Hrest]; subst.
    change (join ", " (x :: y :: ys))
      with (x ++ String ","%char (String " "%char (join ", " (y :: ys)))).
    rewrite (trimmedNames_app x _ Hc), trimmedNames_after_space, Ht.
    f_equal. now apply IH.
Qed.

End JSFacts.

(* ===================================================================== *)
(** * Properties of validation and merge *)
(* ===================================================================== *)

Module ConfigFacts.
Import JS Schema Config JSFacts SchemaFacts.

(** ** Validation *)

(** The defects that the claim lists: an enum shape whose value list is
    missing or empty, a missing type tag, an unrecognized type tag. *)
Definition faulty (q : ParameterConfig) : Prop :=
  (type q = Some "enum" /\ (enum q = None \/ enum q = Some [])) \/
  type q = None \/
  (exists t, type q = Some t /\ ~ In t validTypes).

Definition wellDeclared (q : ParameterConfig) : Prop :=
  (exists t, type q = Some t /\ In t validTypes) /\
  (type q = Some "enum" -> exists e es, enum q = Some (e :: es)).

Lemma includes_In xs x : includes xs x = true <-> In x xs.
Proof.
  unfold includes. rewrite existsb_exists. split.
  - intros (y & Hy & Heq). apply String.eqb_eq in Heq. now subst.
  - intros H. exists x. split; [assumption | apply String.eqb_refl].
Qed.

Lemma recognized_spec q :
  recognized q = true <-> exists t, type q = Some t /\ In t validTypes.
Proof.
  unfold recognized. rewrite andb_true_iff, includes_In. split.
  - intros [Ht Hin]. destruct (type q) as [t|]; [|discriminate]. eauto.
  - intros (t & -> & Hin). split; [|assumption].
    destruct t; [|reflexivity]. simpl in Hin.
    repeat (destruct Hin as [Hin|Hin]; [discriminate|]). contradiction.
Qed.

Lemma type_is_enum q : type_is (type q) "enum" = true <-> type q = Some "enum".
Proof.
  unfold type_is. destruct (type q) as [t|]; [|split; discriminate].
  rewrite String.eqb_eq. split; congruence.
Qed.

Lemma sound_wellDeclared q : sound q = true <-> wellDeclared q.
Proof.
  unfold sound, wellDeclared, enumerated.
  rewrite andb_true_iff, recognized_spec, negb_true_iff, andb_false_iff.
  split; intros [Hrec Hen]; (split; [assumption|]).
  - intros Hty. apply type_is_enum in Hty.
    destruct Hen as [Hen|Hen]; [congruence|].
    destruct (enum q) as [[|e es]|]; try discriminate. eauto.
  - destruct (type_is (type q) "enum") eqn:Hty; [|now left].
    right. apply type_is_enum in Hty. destruct (Hen Hty) as (e & es & ->).
    reflexivity.
Qed.

Lemma faulty_not_sound q : faulty q -> sound q = false.
Proof.
  intros Hq. destruct (sound q) eqn:E; [|reflexivity].
  apply sound_wellDeclared in E as [(t & Ht & Hin) Hen].
  destruct Hq as [[Hty Hmiss] | [Hnone | (t' & Ht' & Hnot)]].
  - destruct (Hen Hty) as (e & es & He). destruct Hmiss; congruence.
  - congruence.
  - rewrite Ht in Ht'. injection Ht' as <-. contradiction.
Qed.

(** C10. When the named tool exists, [validateToolConfig] returns an
    error message as soon as one declared parameter, at the top level,
    among an object's properties at any depth or as an array's item
    shape, is an enum without values or has a missing or unrecognized
    type tag; and it returns [null] when every declared parameter at
    every depth has a recognized type and every enum has a non-empty
    value list. *)
Theorem validateToolConfig_detects_faulty_shapes :
  forall (config : DevToolsConfig) (toolName : string) (toolConfig : PromptConfig),
    lookup toolName config = Some toolConfig ->
    ((exists params n p q,
         parameters toolConfig = Some params /\ In (n, p) params /\
         Declared p q /\ faulty q) ->
     exists message, validateToolConfig config toolName = Some message) /\
    ((forall params n p q,
         parameters toolConfig = Some params -> In (n, p) params ->
         Declared p q -> wellDeclared q) ->
     validateToolConfig config toolName = None).
Proof.
  intros config toolName toolConfig Hfound. unfold validateToolConfig.
  rewrite Hfound. split.
  - intros (params & n & p & q & -> & Hin & Hdecl & Hfaulty).
    destruct (validateParameters params) as [message|] eqn:E; [eauto|].
    rewrite validateParameters_None in E.
    specialize (E n p q Hin Hdecl).
    rewrite (faulty_not_sound q Hfaulty) in E. discriminate E.
  - intros Hall. destruct (parameters toolConfig) as [params|]; [|reflexivity].
    apply validateParameters_None. intros n p q Hin Hdecl.
    apply sound_wellDeclared. now apply (Hall params n p q).
Qed.

Lemma validateToolConfig_detects_faulty_shapes_witness :
  let inner := mkParameterConfig (Some "enum") None None None (Some []) None None in
  let outer := mkParameterConfig (Some "array") None None None None (Some inner) None in
  let good := mkParameterConfig (Some "enum") None None None (Some [EStr "a"]) None None in
  (exists message,
      validateToolConfig
        [("t", mkPromptConfig None None None None None None None
                 (Some [("p", outer)]))] "t" = Some message) /\
  validateToolConfig
    [("t", mkPromptConfig None None None None None None None
             (Some [("p", good)]))] "t" = None.
Proof.
  intros inner outer good. split.
  - apply (validateToolConfig_detects_faulty_shapes
             [("t", mkPromptConfig None None None None None None None
                      (Some [("p", outer)]))] "t" _ eq_refl).
    exists [("p", outer)], "p", outer, inner. repeat split.
    + now left.
    + apply (Declared_item outer inner inner); [reflexivity | reflexivity |].
      apply Declared_itself.
    + left. split; [reflexivity | now right].
  - apply (validateToolConfig_detects_faulty_shapes
             [("t", mkPromptConfig None None None None None None None
                      (Some [("p", good)]))] "t" _ eq_refl).
    intros params n p q Hparams Hin Hdecl.
    injection Hparams as <-. destruct Hin as [Heq|[]]. injection Heq as <- <-.
    inversion Hdecl; subst; try discriminate.
    split.
    + exists "enum". split; [reflexivity|]. simpl. tauto.
    + intros _. exists (EStr "a"), []. reflexivity.
Defined.

(** ** Mappings updated in a loop *)

Section MappingFacts.
Context {A : Type}.

Lemma lookup_assign_same (k : string) (a : A) m : lookup k (assign k a m) = Some a.
Proof.
  induction m as [|[k' a'] m IH]; simpl.
  - now rewrite String.eqb_refl.
  - destruct (String.eqb k k') eqn:E; simpl; rewrite ?String.eqb_refl, ?E; auto.
Qed.

Lemma lookup_assign_other (k k' : string) (a : A) m :
  k <> k' -> lookup k (assign k' a m) = lookup k m.
Proof.
  intros Hne. apply String.eqb_neq in Hne.
  induction m as [|[k0 a0] m IH]; simpl.
  - now rewrite Hne.
  - destruct (String.eqb k' k0) eqn:E; simpl.
    + apply String.eqb_eq in E. subst k0. now rewrite Hne.
    + now rewrite IH.
Qed.

Lemma lookup_None (k : string) (m : list (string * A)) :
  lookup k m = None <-> ~ In k (keys m).
Proof.
  induction m as [|[k' a] m IH]; simpl; [tauto|].
  destruct (String.eqb k k') eqn:E.
  - apply String.eqb_eq in E. split; [discriminate | intros H; destruct H; auto].
  - apply String.eqb_neq in E. rewrite IH. split; [|tauto].
    intros H [Heq|Hin]; [congruence | contradiction].
Qed.

Lemma keys_assign (k : string) (a : A) m x :
  In x (keys (assign k a m)) <-> x = k \/ In x (keys m).
Proof.
  induction m as [|[k' a'] m IH]; simpl; [intuition|].
  destruct (String.eqb k k') eqn:E; simpl.
  - apply String.eqb_eq in E. subst. intuition.
  - rewrite IH. intuition.
Qed.

Lemma NoDup_assign (k : string) (a : A) m :
  NoDup (keys m) -> NoDup (keys (assign k a m)).
Proof.
  induction m as [|[k' a'] m IH]; simpl; intros H.
  - constructor; [simpl; tauto | constructor].
  - inversion H as [|? ? Hnot Hrest]; subst.
    destruct (String.eqb k k') eqn:E; simpl.
    + apply String.eqb_eq in E. subst. now constructor.
    + constructor; [|auto]. rewrite keys_assign. intros [Heq|Hin]; [|auto].
      subst. now rewrite String.eqb_refl in E.
Qed.

(** A loop over the entries of [source] that assigns, under each key, a
    combination of what [target] holds there and of the entry. *)
Variable combine : option A -> A -> A.

Definition update (m : list (string * A)) (kv : string * A) : list (string * A) :=
  assign (fst kv) (combine (lookup (fst kv) m) (snd kv)) m.

Lemma lookup_update_loop (source : list (string * A)) :
  NoDup (keys source) ->
  forall target k,
    lookup k (fold_left update source target)
    = match lookup k source with
      | Some a => Some (combine (lookup k target) a)
      | None => lookup k target
      end.
Proof.
  induction source as [|[k' a] source IH]; intros Hnd target k; simpl;
    [reflexivity|].
  inversion Hnd as [|? ? Hnot Hrest]; subst.
  rewrite (IH Hrest). unfold update at 1 2. simpl.
  destruct (String.eqb k k') eqn:E.
  - apply String.eqb_eq in E. subst k'.
    apply lookup_None in Hnot. rewrite Hnot. apply lookup_assign_same.
  - apply String.eqb_neq in E. rewrite (lookup_assign_other k k' _ _ E).
    reflexivity.
Qed.

Lemma NoDup_update_loop (source : list (string * A)) :
  forall target,
    NoDup (keys target) -> NoDup (keys (fold_left update source target)).
Proof.
  induction source as [|kv source IH]; intros target H; simpl; [assumption|].
  apply IH. unfold update. now apply NoDup_assign.
Qed.
End MappingFacts.

(** ** Merge of two declaration sets *)

Definition combinePrompt (existing : option PromptConfig) (value : PromptConfig)
  : PromptConfig :=
  match existing with
  | Some e => mergePrompt e value
  | None => value
  end.

Lemma mergeConfigs_as_loop target source :
  mergeConfigs target source = fold_left (update combinePrompt) source target.
Proof.
  unfold mergeConfigs. revert target.
  induction source as [|[k v] source IH]; intros target; simpl; [reflexivity|].
  rewrite IH. f_equal. unfold update, mergeKey, combinePrompt. simpl.
  destruct (lookup k target); reflexivity.
Qed.

(** The merged set is again a mapping with pairwise distinct keys. *)
Lemma mergeConfigs_keys_distinct target source :
  NoDup (keys target) -> NoDup (keys (mergeConfigs target source)).
Proof. rewrite mergeConfigs_as_loop. apply NoDup_update_loop. Qed.




(** ** Merge of two tool references in object form *)

Definition combineEntry (existing : option ToolEntry) (value : ToolEntry) : ToolEntry :=
  match existing, value with
  | Some (Full e), Full incoming => Full (spreadToolConfig e incoming)
  | _, _ => value
  end.

Definition isObject (t : Tools) : Prop :=
  match t with
  | ToolsObject _ => True
  | ToolsString _ => False
  end.

Definition isFlat (e : ToolEntry) : Prop :=
  match e with
  | Flat _ => True
  | Full _ => False
  end.

(** The keys of an object are pairwise distinct. *)
Definition wellKeyed (t : Tools) : Prop :=
  match t with
  | ToolsObject entries => NoDup (keys entries)
  | ToolsString _ => True
  end.

Lemma mergeEntry_as_update result kv :
  mergeEntry result (fst kv) (snd kv) = update combineEntry result kv.
Proof.
  unfold mergeEntry, update, combineEntry.
  destruct (lookup (fst kv) result) as [[d|e]|], (snd kv); reflexivity.
Qed.

Lemma mergeTools_objects t s :
  truthy_tools (Some t) = true ->
  truthy_tools (Some s) = true ->
  isObject t \/ isObject s ->
  mergeTools (Some t) (Some s)
  = Some (ToolsObject (fold_left (update combineEntry) (toObject s) (toObject t))).
Proof.
  intros Ht Hs Hobj. unfold mergeTools. rewrite Ht, Hs. simpl.
  assert (Hfold : forall src tgt,
             fold_left (fun result kv => mergeEntry result (fst kv) (snd kv)) src tgt
             = fold_left (update combineEntry) src tgt).
  { induction src as [|kv src IH]; intros tgt; simpl; [reflexivity|].
    now rewrite IH, mergeEntry_as_update. }
  destruct t, s; simpl in Hobj; try (now rewrite Hfold).
  destruct Hobj as [[]|[]].
Qed.

Section FromEntries.
Context {A : Type}.

Lemma NoDup_assign_loop (es : list (string * A)) :
  forall acc, NoDup (keys acc) ->
              NoDup (keys (fold_left (fun m e => assign (fst e) (snd e) m) es acc)).
Proof.
  induction es as [|e es IH]; intros acc H; simpl; [assumption|].
  apply IH. now apply NoDup_assign.
Qed.

Lemma NoDup_fromEntries (es : list (string * A)) : NoDup (keys (fromEntries es)).
Proof. apply NoDup_assign_loop. constructor. Qed.

Lemma lookup_constant_entries (a : A) (names : list string) (k : string) :
  forall acc,
    lookup k (fold_left (fun m e => assign (fst e) (snd e) m)
                (map (fun n => (n, a)) names) acc)
    = if includes names k then Some a else lookup k acc.
Proof.
  unfold includes.
  induction names as [|n names IH]; intros acc; simpl; [reflexivity|].
  rewrite IH. destruct (existsb (String.eqb k) names); simpl.
  - now rewrite orb_true_r.
  - rewrite orb_false_r. destruct (String.eqb k n) eqn:E.
    + apply String.eqb_eq in E. subst. apply lookup_assign_same.
    + apply String.eqb_neq in E. now apply lookup_assign_other.
Qed.
End FromEntries.

Lemma wellKeyed_toObject s : wellKeyed s -> NoDup (keys (toObject s)).
Proof.
  destruct s as [names|entries]; simpl; [|auto].
  intros _. apply NoDup_fromEntries.
Qed.

(** The reading of the claim: a string side becomes, per name, the
    record with empty description, empty prompt and [optional] false. *)
Definition normalizedRecord : ToolEntry :=
  Full (mkToolConfig None (Some EmptyString) (Some EmptyString) (Some false) None).

(** The reading of the claim: both entries of a common key are records
    (a plain string being the description of one) merged field by field. *)
Definition recordOf (e : ToolEntry) : ToolConfig :=
  match e with
  | Flat d => mkToolConfig None (Some d) None None None
  | Full c => c
  end.

Definition deepMerged (x y : ToolEntry) : ToolEntry :=
  Full (spreadToolConfig (recordOf x) (recordOf y)).

(** C4 (as stated, refuted). A string side is normalized to plain empty
    descriptions, not to records; and for a key of both sides whose base
    entry is a plain description, the overlay's record replaces it
    wholesale: the description ["desc-a"] is lost, where a merge field by
    field keeps it. *)
Lemma mergeTools_replaces_flat_entries :
  mergeTools (Some (ToolsString "a")) (Some (ToolsObject [("b", Flat "x")]))
  = Some (ToolsObject [("a", Flat EmptyString); ("b", Flat "x")]) /\
  Flat EmptyString <> normalizedRecord /\
  let overlay := Full (mkToolConfig None None (Some "p") None None) in
  mergeTools (Some (ToolsObject [("a", Flat "desc-a")]))
    (Some (ToolsObject [("a", overlay)]))
  = Some (ToolsObject [("a", overlay)]) /\
  deepMerged (Flat "desc-a") overlay
  = Full (mkToolConfig None (Some "desc-a") (Some "p") None None) /\
  overlay <> deepMerged (Flat "desc-a") overlay.
Proof.
  split; [reflexivity|]. split; [discriminate|].
  intros overlay. split; [reflexivity|]. split; [reflexivity|]. discriminate.
Qed.

(** C4 (amended). Two tool references are present and one at least is in
    object form. If the other one is the empty string, the object is
    returned as it is. Otherwise a string side is first turned into the
    mapping of each trimmed name to the empty description string, and the
    result is an object that holds, for a key of both mappings: the
    field-by-field merge of the two records (the overlay's field when the
    overlay has it) if both entries are records, the overlay's entry if
    either entry is a plain string; and for a key of one mapping only,
    that mapping's entry unchanged. The overlay is taken to have no key
    [__proto__]: an assignment under that name sets the prototype of the
    result. *)
Theorem mergeTools_object_form :
  forall t s : Tools,
    isObject t \/ isObject s ->
    wellKeyed s ->
    (forall names k,
        lookup k (toObject (ToolsString names))
        = if includes (trimmedNames names) k then Some (Flat EmptyString) else None) /\
    (truthy_tools (Some t) = false -> mergeTools (Some t) (Some s) = Some s) /\
    (truthy_tools (Some s) = false -> mergeTools (Some t) (Some s) = Some t) /\
    (truthy_tools (Some t) = true ->
     truthy_tools (Some s) = true ->
     lookup "__proto__" (toObject s) = None ->
     exists result,
      mergeTools (Some t) (Some s) = Some (ToolsObject result) /\
      forall k,
        (forall a b,
            lookup k (toObject t) = Some (Full a) ->
            lookup k (toObject s) = Some (Full b) ->
            exists merged,
              lookup k result = Some (Full merged) /\
              tool_name merged = spread (tool_name a) (tool_name b) /\
              tool_description merged
              = spread (tool_description a) (tool_description b) /\
              tool_prompt merged = spread (tool_prompt a) (tool_prompt b) /\
              tool_optional merged = spread (tool_optional a) (tool_optional b) /\
              tool_parameters merged
              = spread (tool_parameters a) (tool_parameters b)) /\
        (forall x y,
            lookup k (toObject t) = Some x ->
            lookup k (toObject s) = Some y ->
            isFlat x \/ isFlat y ->
            lookup k result = Some y) /\
        (forall x,
            lookup k (toObject t) = Some x ->
            lookup k (toObject s) = None ->
            lookup k result = Some x) /\
        (forall y,
            lookup k (toObject t) = None ->
            lookup k (toObject s) = Some y ->
            lookup k result = Some y)).
Proof.
  intros t s Hobj Hkeys. split; [|split; [|split]].
  - intros names k. unfold toObject, fromEntries.
    now rewrite lookup_constant_entries.
  - intros Ht. destruct t as [[|c names]|entries]; try discriminate Ht.
    destruct Hobj as [[]|Hs]. destruct s as [names|entries]; [destruct Hs|].
    reflexivity.
  - intros Hs. destruct s as [[|c names]|entries]; try discriminate Hs.
    destruct Hobj as [Ht|[]]. destruct t as [names|entries]; [destruct Ht|].
    reflexivity.
  - intros Ht Hs _. eexists. split; [now apply mergeTools_objects|].
    intros k.
    rewrite (lookup_update_loop combineEntry (toObject s) (wellKeyed_toObject s Hkeys)).
    split; [|split; [|split]].
    + intros a b -> ->. exists (spreadToolConfig a b). repeat split.
    + intros x y -> -> Hflat. destruct x, y; simpl in *; try reflexivity.
      destruct Hflat as [[]|[]].
    + intros x -> ->. reflexivity.
    + intros y -> ->. reflexivity.
Qed.

Lemma mergeTools_object_form_witness :
  let a := mkToolConfig None (Some "d") (Some "p") None None in
  (exists result,
      mergeTools (Some (ToolsString "x, y"))
        (Some (ToolsObject [("k", Full a)])) = Some (ToolsObject result) /\
      lookup "x" result = Some (Flat EmptyString) /\
      lookup "k" result = Some (Full a)) /\
  mergeTools (Some (ToolsString EmptyString)) (Some (ToolsObject [("k", Full a)]))
  = Some (ToolsObject [("k", Full a)]) /\
  mergeTools (Some (ToolsObject [("k", Full a)])) (Some (ToolsString EmptyString))
  = Some (ToolsObject [("k", Full a)]).
Proof.
  intros a.
  assert (Hkeys : wellKeyed (ToolsObject [("k", Full a)])).
  { constructor; [simpl; tauto | constructor]. }
  split; [|split].
  - destruct (mergeTools_object_form (ToolsString "x, y")
                (ToolsObject [("k", Full a)]) (or_intror I) Hkeys)
      as (_ & _ & _ & Hmerge).
    destruct (Hmerge eq_refl eq_refl eq_refl) as (result & Hres & Hk).
    exists result. split; [exact Hres|]. split.
    + destruct (Hk "x") as (_ & _ & Hbase & _).
      apply Hbase; reflexivity.
    + destruct (Hk "k") as (_ & _ & _ & Hoverlay).
      apply Hoverlay; reflexivity.
  - destruct (mergeTools_object_form (ToolsString EmptyString)
                (ToolsObject [("k", Full a)]) (or_intror I) Hkeys)
      as (_ & Hempty & _).
    apply Hempty. reflexivity.
  - assert (Hnone : wellKeyed (ToolsString EmptyString)) by exact I.
    destruct (mergeTools_object_form (ToolsObject [("k", Full a)])
                (ToolsString EmptyString) (or_introl I) Hnone)
      as (_ & _ & Hempty & _).
    apply Hempty. reflexivity.
Defined.

(** ** Merge of two tool references in string form *)

(** The names that a merged reference lists when it is a string. *)
Definition tokenSet (merged : option Tools) : list string :=
  match merged with
  | Some (ToolsString s) => trimmedNames s
  | _ => []
  end.

Lemma Set_from_names_nonempty a b :
  exists x xs, Set_from (trimmedNames a ++ trimmedNames b)%list = x :: xs.
Proof.
  destruct (Set_from (trimmedNames a ++ trimmedNames b)%list) as [|x xs] eqn:E;
    [|eauto].
  exfalso.
  assert (H : exists y, In y (trimmedNames a)).
  { unfold trimmedNames. pose proof (split_comma_nonempty a) as Hne.
    destruct (split_comma a) as [|seg segs]; [contradiction|].
    exists (trim seg). now left. }
  destruct H as (y & Hy).
  assert (Hin : In y (Set_from (trimmedNames a ++ trimmedNames b)%list)).
  { apply Set_from_In, in_or_app. now left. }
  rewrite E in Hin. contradiction.
Qed.

Lemma merged_names_read_back a b :
  trimmedNames (join ", " (Set_from (trimmedNames a ++ trimmedNames b)%list))
  = Set_from (trimmedNames a ++ trimmedNames b)%list.
Proof.
  destruct (Set_from_names_nonempty a b) as (x & xs & E). rewrite E.
  apply trimmedNames_join. rewrite <- E.
  apply Forall_forall. intros y Hy. apply Set_from_In, in_app_or in Hy.
  pose proof (trimmedNames_are_names a) as Ha.
  pose proof (trimmedNames_are_names b) as Hb.
  rewrite Forall_forall in Ha, Hb. destruct Hy; auto.
Qed.

Lemma mergeTools_strings a b :
  a <> EmptyString -> b <> EmptyString ->
  mergeTools (Some (ToolsString a)) (Some (ToolsString b))
  = Some (ToolsString
            (join ", " (Set_from (trimmedNames a ++ trimmedNames b)%list))).
Proof.
  intros Ha Hb. destruct a; [contradiction|]. destruct b; [contradiction|].
  reflexivity.
Qed.

(** C9 (as stated, refuted). The empty string counts as an absent
    reference: the other string is returned as it is, neither
    de-duplicated nor joined again. *)
Lemma mergeTools_empty_string_returns_other :
  mergeTools (Some (ToolsString EmptyString)) (Some (ToolsString "a,a"))
  = Some (ToolsString "a,a") /\
  join ", " (Set_from (trimmedNames EmptyString ++ trimmedNames "a,a")%list)
  = ", a" /\
  ~ NoDup (tokenSet (mergeTools (Some (ToolsString EmptyString))
                       (Some (ToolsString "a,a")))).
Proof.
  split; [reflexivity|]. split; [reflexivity|].
  simpl. intros H. inversion H as [|? ? Hnot _]; subst.
  apply Hnot. now left.
Qed.

(** C9 (amended). For two non-empty strings, [mergeTools] returns the
    trimmed names of both, each once, in first-occurrence order, joined
    with a comma and a space; reading the result back gives these names.
    When exactly one of the strings is empty the other reference is
    returned unchanged; when both are empty the result is [undefined]. In
    every case the names listed by the result are the same set for both
    orders of the arguments. *)
Theorem mergeTools_strings_union :
  forall a b : string,
    (a <> EmptyString -> b <> EmptyString ->
     let union := Set_from (trimmedNames a ++ trimmedNames b)%list in
     mergeTools (Some (ToolsString a)) (Some (ToolsString b))
     = Some (ToolsString (join ", " union)) /\
     NoDup union /\
     (forall x, In x union <-> In x (trimmedNames a) \/ In x (trimmedNames b)) /\
     tokenSet (mergeTools (Some (ToolsString a)) (Some (ToolsString b))) = union) /\
    (a <> EmptyString ->
     mergeTools (Some (ToolsString a)) (Some (ToolsString EmptyString))
     = Some (ToolsString a) /\
     mergeTools (Some (ToolsString EmptyString)) (Some (ToolsString a))
     = Some (ToolsString a)) /\
    (a = EmptyString -> b = EmptyString ->
     mergeTools (Some (ToolsString a)) (Some (ToolsString b)) = None) /\
    (forall x,
        In x (tokenSet (mergeTools (Some (ToolsString a)) (Some (ToolsString b))))
        <->
        In x (tokenSet (mergeTools (Some (ToolsString b)) (Some (ToolsString a))))).
Proof.
  intros a b. split; [|split; [|split]].
  - intros Ha Hb union. subst union.
    rewrite (mergeTools_strings a b Ha Hb). split; [reflexivity|].
    split; [apply Set_from_NoDup|]. split.
    + intros x. rewrite Set_from_In. apply in_app_iff.
    + simpl. apply merged_names_read_back.
  - intros Ha. destruct a; [contradiction|]. split; reflexivity.
  - intros -> ->. reflexivity.
  - intros x. destruct a as [|c a], b as [|d b]; try reflexivity.
    rewrite !mergeTools_strings by discriminate. simpl.
    rewrite !merged_names_read_back, !Set_from_In, !in_app_iff. tauto.
Qed.

Lemma mergeTools_strings_union_witness :
  mergeTools (Some (ToolsString "a,b")) (Some (ToolsString "b,c"))
  = Some (ToolsString "a, b, c") /\
  mergeTools (Some (ToolsString "b,c")) (Some (ToolsString "a,b"))
  = Some (ToolsString "b, c, a") /\
  mergeTools (Some (ToolsString "a,a")) (Some (ToolsString EmptyString))
  = Some (ToolsString "a,a") /\
  mergeTools (Some (ToolsString EmptyString)) (Some (ToolsString EmptyString)) = None /\
  (forall x,
      In x (tokenSet (mergeTools (Some (ToolsString "a,b")) (Some (ToolsString "b,c"))))
      <-> In x ["a"; "b"; "c"]) /\
  (forall x,
      In x (tokenSet (mergeTools (Some (ToolsString "b,c")) (Some (ToolsString "a,b"))))
      <-> In x ["a"; "b"; "c"]).
Proof.
  destruct (mergeTools_strings_union "a,b" "b,c") as (Hunion & _ & _ & Hsym).
  assert (Ha : "a,b" <> EmptyString) by discriminate.
  assert (Hb : "b,c" <> EmptyString) by discriminate.
  destruct (Hunion Ha Hb) as (Hmerge & _ & _ & Htokens).
  split; [exact Hmerge|]. split; [reflexivity|].
  split.
  { destruct (mergeTools_strings_union "a,a" EmptyString) as (_ & Hone & _).
    assert (Haa : "a,a" <> EmptyString) by discriminate.
    exact (proj1 (Hone Haa)). }
  split.
  { destruct (mergeTools_strings_union EmptyString EmptyString) as (_ & _ & Hboth & _).
    exact (Hboth eq_refl eq_refl). }
  assert (Hfirst : forall x,
             In x (tokenSet (mergeTools (Some (ToolsString "a,b"))
                               (Some (ToolsString "b,c"))))
             <-> In x ["a"; "b"; "c"]).
  { intros x. rewrite Htokens. reflexivity. }
  split; [exact Hfirst|].
  intros x. rewrite <- (Hsym x). apply Hfirst.
Defined.

End ConfigFacts.

(* ===================================================================== *)
(** * Properties of the prompt text *)
(* ===================================================================== *)

Module PromptFacts.
Import JS JSFacts Prompt.

(** ** The tools section *)

Lemma append_assoc (a b c : string) : (a ++ b) ++ c = a ++ b ++ c.
Proof. induction a as [|x a IH]; simpl; [reflexivity | now rewrite IH]. Qed.

Lemma append_empty_r (a : string) : a ++ EmptyString = a.
Proof. induction a as [|x a IH]; simpl; [reflexivity | now rewrite IH]. Qed.

(** The en dash, U+2013, in UTF-8. *)
Definition enDash : string :=
  String (ascii_of_nat 226) (String (ascii_of_nat 128)
    (String (ascii_of_nat 147) EmptyString)).

(** [sub] occurs in [s]. *)
Fixpoint occursIn (sub s : string) : bool :=
  String.prefix sub s ||
  match s with
  | EmptyString => false
  | String _ s' => occursIn sub s'
  end.

(** What follows the bullet or the number on the line of a tool. *)
Definition toolLine (tool : ToolItem) : string :=
  name tool
  ++ match truthy_string (description tool), truthy_string (prompt tool) with
     | true, false => ": " ++ text (description tool)
     | false, true => ": " ++ text (prompt tool)
     | true, true => ": " ++ text (description tool) ++ " - " ++ text (prompt tool)
     | false, false => EmptyString
     end
  ++ (if truthy_bool (optional tool) then " (Optional)" else EmptyString)
  ++ LF.

Fixpoint sequentialLines (index : nat) (toolsList : list ToolItem) : string :=
  match toolsList with
  | [] => EmptyString
  | tool :: rest =>
      string_of_nat (index + 1) ++ ". " ++ toolLine tool
      ++ sequentialLines (S index) rest
  end.

Fixpoint situationalLines (toolsList : list ToolItem) : string :=
  match toolsList with
  | [] => EmptyString
  | tool :: rest => "- " ++ toolLine tool ++ situationalLines rest
  end.

Lemma appendTool_line acc tool :
  appendTool (acc ++ name tool) tool = acc ++ toolLine tool.
Proof.
  unfold appendTool, toolLine.
  destruct (truthy_string (prompt tool)), (truthy_string (description tool)),
    (truthy_bool (optional tool)); simpl;
    rewrite ?append_assoc, ?append_empty_r; simpl; reflexivity.
Qed.

Lemma sequentialLoop_lines toolsList :
  forall index acc,
    sequentialLoop index toolsList acc = acc ++ sequentialLines index toolsList.
Proof.
  induction toolsList as [|tool rest IH]; intros index acc;
    cbn [sequentialLoop sequentialLines].
  - now rewrite append_empty_r.
  - rewrite IH.
    replace (acc ++ string_of_nat (index + 1) ++ ". " ++ name tool)
      with ((acc ++ string_of_nat (index + 1) ++ ". ") ++ name tool)
      by (now rewrite !append_assoc).
    rewrite appendTool_line, !append_assoc. reflexivity.
Qed.

Lemma situationalLoop_lines toolsList :
  forall acc, situationalLoop toolsList acc = acc ++ situationalLines toolsList.
Proof.
  induction toolsList as [|tool rest IH]; intros acc;
    cbn [situationalLoop situationalLines].
  - now rewrite append_empty_r.
  - rewrite IH.
    replace (acc ++ "- " ++ name tool) with ((acc ++ "- ") ++ name tool)
      by (now rewrite !append_assoc).
    rewrite appendTool_line, !append_assoc. reflexivity.
Qed.

(** C8 (as stated, refuted). With a description and a prompt the line
    reads [name: description - prompt]: a colon after the name, and an
    ASCII hyphen between spaces, not an en dash, before the prompt. *)
Lemma both_present_line_has_colon_and_hyphen :
  let tool := mkToolItem "a" (Some "d") (Some "p") None in
  appendFormattedTools EmptyString [tool] None
  = LF ++ LF ++ "## Available Tools" ++ LF ++ situationalIntro
    ++ "- a: d - p" ++ LF ++ nextSteps /\
  occursIn enDash (appendFormattedTools EmptyString [tool] None) = false /\
  occursIn enDash (appendFormattedTools EmptyString [tool] (Some sequential)) = false.
Proof. repeat split. Qed.

(** C8 (amended). For a non-empty tools list, [appendFormattedTools]
    appends the header ["## Available Tools"], the introduction of the
    mode, one line per entry and the closing instruction. A line is the
    name, then [": "] and the description or the prompt when exactly one
    of them is present, or [": "], the description, [" - "] (an ASCII
    hyphen) and the prompt when both are; it ends with [" (Optional)"]
    exactly when the entry's [optional] flag is set. Lines are numbered
    in sequential mode and bulleted otherwise. For the empty list the
    base text is returned unchanged. *)
Theorem appendFormattedTools_section :
  forall (baseText : string) (toolsList : list ToolItem) (toolMode : option ToolMode),
    (toolsList <> [] ->
     appendFormattedTools baseText toolsList toolMode
     = baseText ++ LF ++ LF ++ "## Available Tools" ++ LF
       ++ match toolMode with
          | Some sequential => sequentialIntro ++ sequentialLines 0 toolsList
          | _ => situationalIntro ++ situationalLines toolsList
          end
       ++ nextSteps) /\
    appendFormattedTools baseText [] toolMode = baseText.
Proof.
  intros baseText toolsList toolMode. split; [|reflexivity].
  intros Hne. destruct toolsList as [|tool rest]; [contradiction|].
  unfold appendFormattedTools.
  destruct toolMode as [[]|];
    rewrite ?sequentialLoop_lines, ?situationalLoop_lines, !append_assoc;
    reflexivity.
Qed.

Lemma appendFormattedTools_section_witness :
  appendFormattedTools "base"
    [mkToolItem "a" (Some "d") (Some "p") (Some true);
     mkToolItem "b" None (Some "p") None;
     mkToolItem "c" (Some "d") None (Some false);
     mkToolItem "e" None None None] (Some sequential)
  = "base" ++ LF ++ LF ++ "## Available Tools" ++ LF ++ sequentialIntro
    ++ "1. a: d - p (Optional)" ++ LF
    ++ "2. b: p" ++ LF
    ++ "3. c: d" ++ LF
    ++ "4. e" ++ LF
    ++ nextSteps.
Proof.
  destruct (appendFormattedTools_section "base"
              [mkToolItem "a" (Some "d") (Some "p") (Some true);
               mkToolItem "b" None (Some "p") None;
               mkToolItem "c" (Some "d") None (Some false);
               mkToolItem "e" None None None] (Some sequential)) as [H _].
  rewrite H; [reflexivity | discriminate].
Defined.

(** ** The template *)

Fixpoint braceFree (s : string) : bool :=
  match s with
  | EmptyString => true
  | String c s' => negb (Ascii.eqb c "}"%char) && braceFree s'
  end.

(** [s] starts with a placeholder: [{{], a non-empty [body] without a
    closing brace, [}}], and then [rest]. *)
Definition startsWithToken (s body rest : string) : Prop :=
  s = "{{" ++ body ++ "}}" ++ rest /\ body <> EmptyString /\ braceFree body = true.

(** The names that the callback finds on the arguments, in order. *)
Fixpoint consumed (params : list (string * value)) (pieces : list Piece) : list string :=
  match pieces with
  | [] => []
  | Unmatched _ :: rest => consumed params rest
  | Matched _ paramName :: rest =>
      match get (trim paramName) params with
      | Some _ => trim paramName :: consumed params rest
      | None => consumed params rest
      end
  end.

(** The rendering of a template against a non-empty arguments object,
    read from left to right: a placeholder whose trimmed name is a
    property of the arguments, own or inherited, is replaced by the value
    as a string and its name is recorded; a placeholder whose trimmed
    name is no property is copied; so is any character at which no
    placeholder starts. *)
Inductive Rendered (params : list (string * value)) : string -> string -> list string -> Prop :=
| Rendered_end :
    Rendered params EmptyString EmptyString []
| Rendered_substituted s body rest v out used :
    startsWithToken s body rest ->
    get (trim body) params = Some v ->
    Rendered params rest out used ->
    Rendered params s (toString v ++ out) (trim body :: used)
| Rendered_verbatim s body rest out used :
    startsWithToken s body rest ->
    get (trim body) params = None ->
    Rendered params rest out used ->
    Rendered params s ("{{" ++ body ++ "}}" ++ out) used
| Rendered_character c s out used :
    (forall body rest, ~ startsWithToken (String c s) body rest) ->
    Rendered params s out used ->
    Rendered params (String c s) (String c out) used.

Lemma spanName_spec s :
  s = fst (spanName s) ++ snd (spanName s) /\ braceFree (fst (spanName s)) = true.
Proof.
  induction s as [|c s [IH1 IH2]]; simpl; [auto|].
  destruct (Ascii.eqb c "}") eqn:E; simpl; [auto|].
  destruct (spanName s) as [body rest]; simpl in *.
  rewrite E, IH2. split; [congruence | reflexivity].
Qed.

Lemma spanName_app body rest :
  braceFree body = true ->
  spanName (body ++ String "}"%char rest) = (body, String "}"%char rest).
Proof.
  induction body as [|c body IH]; simpl; [reflexivity|].
  intros H. apply andb_true_iff in H as [Hc Hb].
  apply negb_true_iff in Hc. now rewrite Hc, (IH Hb).
Qed.

Lemma matchAt_sound s body rest :
  matchAt s = Some (body, rest) -> startsWithToken s body rest.
Proof.
  unfold matchAt, startsWithToken.
  destruct s as [|c1 [|c2 s1]]; try discriminate.
  destruct (Ascii.eqb c1 "{") eqn:E1; [|discriminate].
  destruct (Ascii.eqb c2 "{") eqn:E2; [|discriminate]. simpl.
  destruct (spanName_spec s1) as [Hs Hb].
  destruct (spanName s1) as [[|c b] [|d1 [|d2 r]]]; try discriminate.
  destruct (Ascii.eqb d1 "}") eqn:E3; [|discriminate].
  destruct (Ascii.eqb d2 "}") eqn:E4; [|discriminate]. simpl.
  intros H. injection H as <- <-.
  apply Ascii.eqb_eq in E1, E2, E3, E4. subst. simpl in Hb.
  split; [reflexivity|]. split; [discriminate | assumption].
Qed.

Lemma matchAt_complete s body rest :
  startsWithToken s body rest -> matchAt s = Some (body, rest).
Proof.
  intros (-> & Hne & Hb). destruct body as [|c b]; [contradiction|].
  change ("{{" ++ String c b ++ "}}" ++ rest)
    with (String "{"%char (String "{"%char
            (String c b ++ String "}"%char (String "}"%char rest)))).
  unfold matchAt. rewrite (spanName_app (String c b) _ Hb). reflexivity.
Qed.

Lemma trimStart_all_space c s :
  trimStart (String c s) = EmptyString ->
  exists x, lastChar c s = String x EmptyString /\ isSpace x = true.
Proof.
  revert c. induction s as [|d s IH]; intros c; simpl.
  - destruct (isSpace c) eqn:E; [eauto | discriminate].
  - destruct (isSpace c) eqn:E; [|discriminate]. intros H.
    apply (IH d). simpl. exact H.
Qed.

(** Trimming the capture group gives the trimmed text between the
    braces. *)
Lemma captured_trim body : trim (captured body) = trim body.
Proof.
  unfold captured. destruct (trimStart body) as [|g gs] eqn:E.
  - destruct body as [|c s]; [reflexivity|].
    destruct (trimStart_all_space c s E) as (x & -> & Hx).
    unfold trim. rewrite E. simpl. now rewrite Hx.
  - unfold trim at 2. rewrite E. unfold trim.
    rewrite trimStart_clean; [reflexivity|].
    rewrite <- E. apply trimStart_startsClean.
Qed.

(** ** The regular expression *)

Fixpoint allSpace (s : string) : bool :=
  match s with
  | EmptyString => true
  | String c s' => isSpace c && allSpace s'
  end.

Lemma isSpace_not_brace c : isSpace c = true -> Ascii.eqb c "}"%char = false.
Proof.
  destruct c as [[] [] [] [] [] [] [] []]; intros H; try reflexivity;
    discriminate H.
Qed.

Lemma braceFree_app a b : braceFree (a ++ b) = braceFree a && braceFree b.
Proof.
  induction a as [|c a IH]; simpl; [reflexivity|].
  now rewrite IH, andb_assoc.
Qed.

Lemma allSpace_braceFree s : allSpace s = true -> braceFree s = true.
Proof.
  induction s as [|c s IH]; simpl; [reflexivity|].
  intros H. apply andb_true_iff in H as [Hc Hs].
  now rewrite (isSpace_not_brace c Hc), (IH Hs).
Qed.

(** However the three quantifiers share the text between the braces,
    [\s*] taking [ws1], the group [g] and [\s*] taking [ws2], the match
    at the start of [s] is the one of [matchAt]. *)
Lemma regexp_match_extent s ws1 g ws2 rest :
  s = "{{" ++ ws1 ++ g ++ ws2 ++ "}}" ++ rest ->
  allSpace ws1 = true -> g <> EmptyString -> braceFree g = true ->
  allSpace ws2 = true ->
  matchAt s = Some (ws1 ++ g ++ ws2, rest).
Proof.
  intros -> H1 Hg Hb H2. apply matchAt_complete. repeat split.
  - now rewrite !append_assoc.
  - destruct ws1; [|discriminate]. destruct g; [contradiction | discriminate].
  - rewrite !braceFree_app, Hb.
    now rewrite (allSpace_braceFree ws1 H1), (allSpace_braceFree ws2 H2).
Qed.

Lemma trimStart_split s : exists ws, s = ws ++ trimStart s /\ allSpace ws = true.
Proof.
  induction s as [|c s (ws & Hs & Hws)]; simpl.
  - exists EmptyString. auto.
  - destruct (isSpace c) eqn:E.
    + exists (String c ws). simpl. rewrite E, Hws. split; [congruence | reflexivity].
    + exists EmptyString. auto.
Qed.

Lemma lastChar_split c s :
  allSpace (String c s) = true ->
  exists ws, String c s = ws ++ lastChar c s /\ allSpace ws = true.
Proof.
  revert c. induction s as [|d s IH]; intros c H.
  - exists EmptyString. auto.
  - simpl in H. apply andb_true_iff in H as [Hc Hs].
    destruct (IH d Hs) as (ws & Heq & Hws).
    exists (String c ws). simpl. rewrite Hc, Hws, <- Heq. auto.
Qed.

Lemma trimStart_empty_allSpace s : trimStart s = EmptyString -> allSpace s = true.
Proof.
  induction s as [|c s IH]; simpl; [reflexivity|].
  destruct (isSpace c); [auto | discriminate].
Qed.

(** The group of [captured] is what the greedy leading [\s*] leaves: the
    body is white space followed by the group, and the group is not
    empty; it starts with a character that is not white space, or it is
    the last character of a body made of white space only. *)
Lemma captured_group body :
  body <> EmptyString ->
  exists ws,
    body = ws ++ captured body /\ allSpace ws = true /\
    captured body <> EmptyString /\
    (startsClean (captured body) = true \/ allSpace body = true).
Proof.
  intros Hne. unfold captured.
  destruct (trimStart body) as [|g gs] eqn:E.
  - destruct body as [|c s]; [contradiction|].
    pose proof (trimStart_empty_allSpace _ E) as Hall.
    destruct (lastChar_split c s Hall) as (ws & Heq & Hws).
    exists ws. repeat split; auto.
    destruct (trimStart_all_space c s E) as (x & -> & _). discriminate.
  - destruct (trimStart_split body) as (ws & Heq & Hws). rewrite E in Heq.
    exists ws. repeat split; auto; [discriminate|].
    left. rewrite <- E. apply trimStart_startsClean.
Qed.


Lemma scan_step c s' :
  scan (String c s')
  = match matchAt (String c s') with
    | Some (body, rest) =>
        Matched ("{{" ++ body ++ "}}") (captured body) :: scan rest
    | None => Unmatched c :: scan s'
    end.
Proof.
  simp scan.
  destruct (inspect (matchAt (String c s'))) as [[[body rest]|] e];
    simp scan; rewrite e; reflexivity.
Qed.

Lemma replacePieces_rendered params :
  forall n s, String.length s <= n ->
    forall acc,
      Rendered params s (fst (replacePieces params (scan s) acc))
        (consumed params (scan s)) /\
      snd (replacePieces params (scan s) acc)
      = fold_left (fun u x => Set_add x u) (consumed params (scan s)) acc.
Proof.
  induction n as [|n IH]; intros s Hlen acc.
  - destruct s; [|simpl in Hlen; lia]. simp scan. simpl.
    split; [constructor | reflexivity].
  - destruct s as [|c s']; [simp scan; simpl; split; [constructor | reflexivity]|].
    rewrite scan_step.
    destruct (matchAt (String c s')) as [[body rest]|] eqn:E.
    + pose proof (matchAt_sound _ _ _ E) as Htok.
      pose proof (matchAt_shorter _ _ _ E) as Hshort.
      assert (Hrest : String.length rest <= n) by lia.
      cbn [replacePieces consumed]. unfold replacer, hasProperty.
      rewrite captured_trim.
      destruct (get (trim body) params) as [v|] eqn:Hv.
      * destruct (IH rest Hrest (Set_add (trim body) acc)) as [Hr Hu].
        destruct (replacePieces params (scan rest) (Set_add (trim body) acc))
          as [out used'].
        cbn [fst snd] in *. split; [|exact Hu].
        apply (Rendered_substituted params _ body rest v); assumption.
      * destruct (IH rest Hrest acc) as [Hr Hu].
        destruct (replacePieces params (scan rest) acc) as [out used'].
        cbn [fst snd] in *. split; [|exact Hu].
        rewrite !append_assoc.
        apply (Rendered_verbatim params _ body rest); assumption.
    + assert (Hrest : String.length s' <= n) by (simpl in Hlen; lia).
      cbn [replacePieces consumed].
      destruct (IH s' Hrest acc) as [Hr Hu].
      destruct (replacePieces params (scan s') acc) as [out used'].
      cbn [fst snd] in *. split; [|exact Hu].
      apply Rendered_character; [|assumption].
      intros body rest Htok. apply matchAt_complete in Htok. congruence.
Qed.

(** The rendering of a template is unique. *)
Lemma Rendered_functional params s out used :
  Rendered params s out used ->
  forall out' used', Rendered params s out' used' -> out = out' /\ used = used'.
Proof.
  induction 1 as [| s body rest v out used Htok Hv _ IH
                  | s body rest out used Htok Hv _ IH
                  | c s out used Hno _ IH];
    intros out' used' H'.
  - inversion H' as [| ? b r ? ? ? Htok' | ? b r ? ? Htok' |]; subst; auto.
    + destruct Htok' as (Heq & _). discriminate Heq.
    + destruct Htok' as (Heq & _). discriminate Heq.
  - pose proof (matchAt_complete _ _ _ Htok) as Hm.
    inversion H' as [| ? b r v' o u Htok' Hv' Hr' | ? b r o u Htok' Hv' Hr'
                    | c' s'' o u Hno' Hr']; subst.
    + destruct Htok as (Heq & _). discriminate Heq.
    + apply matchAt_complete in Htok'. rewrite Hm in Htok'.
      injection Htok' as <- <-. rewrite Hv in Hv'. injection Hv' as <-.
      destruct (IH _ _ Hr') as [-> ->]. auto.
    + apply matchAt_complete in Htok'. rewrite Hm in Htok'.
      injection Htok' as <- <-. congruence.
    + now destruct (Hno' body rest).
  - pose proof (matchAt_complete _ _ _ Htok) as Hm.
    inversion H' as [| ? b r v' o u Htok' Hv' Hr' | ? b r o u Htok' Hv' Hr'
                    | c' s'' o u Hno' Hr']; subst.
    + destruct Htok as (Heq & _). discriminate Heq.
    + apply matchAt_complete in Htok'. rewrite Hm in Htok'.
      injection Htok' as <- <-. congruence.
    + apply matchAt_complete in Htok'. rewrite Hm in Htok'.
      injection Htok' as <- <-.
      destruct (IH _ _ Hr') as [-> ->]. auto.
    + now destruct (Hno' body rest).
  - inversion H' as [| ? b r v' o u Htok' Hv' Hr' | ? b r o u Htok' Hv' Hr'
                    | c' s'' o u Hno' Hr']; subst.
    + now destruct (Hno b r).
    + now destruct (Hno b r).
    + destruct (IH _ _ Hr') as [-> ->]. auto.
Qed.

(** Without arguments the template is returned as it is. *)
Lemma processTemplate_without_arguments template :
  processTemplate (Some template) [] = mkProcessed template [].
Proof. reflexivity. Qed.

Lemma processTemplate_rendered template params :
  params <> [] ->
  exists consumedNames,
    Rendered params template (result (processTemplate (Some template) params))
      consumedNames /\
    usedParams (processTemplate (Some template) params) = Set_from consumedNames.
Proof.
  intros Hparams.
  destruct (replacePieces_rendered params (String.length template) template
              (Nat.le_refl _) []) as [Hr Hu].
  destruct params as [|kv params]; [contradiction|].
  exists (consumed (kv :: params) (scan template)).
  unfold processTemplate.
  destruct (replacePieces (kv :: params) (scan template) []) as [out used].
  simpl in *. split; [exact Hr | exact Hu].
Qed.

(** What the callback does with one placeholder at the head of a
    template, against a non-empty arguments object: a name that is a
    property of the arguments, own or inherited, is replaced by the value
    as a string and recorded; any other name leaves the placeholder as it
    is. *)
Lemma processTemplate_placeholder (body rest : string) (params : list (string * value)) :
  params <> [] -> body <> EmptyString -> braceFree body = true ->
  let processed := processTemplate (Some ("{{" ++ body ++ "}}" ++ rest)) params in
  let after := processTemplate (Some rest) params in
  match get (trim body) params with
  | Some v =>
      result processed = toString v ++ result after /\
      (forall x, In x (usedParams processed) <->
                 x = trim body \/ In x (usedParams after))
  | None =>
      result processed = "{{" ++ body ++ "}}" ++ result after /\
      (forall x, In x (usedParams processed) <-> In x (usedParams after))
  end.
Proof.
  intros Hparams Hne Hb processed after. subst processed after.
  destruct (processTemplate_rendered rest params Hparams) as (names & Hr & Hu).
  destruct (processTemplate_rendered ("{{" ++ body ++ "}}" ++ rest) params Hparams)
    as (names' & Hr' & Hu').
  assert (Htok : startsWithToken ("{{" ++ body ++ "}}" ++ rest) body rest)
    by (repeat split; assumption).
  destruct (get (trim body) params) as [v|] eqn:Hv.
  - pose proof (Rendered_substituted params _ body rest v _ _ Htok Hv Hr) as Hspec.
    destruct (Rendered_functional _ _ _ _ Hr' _ _ Hspec) as [Hout Hnames].
    split; [exact Hout|].
    intros x. rewrite Hu', Hu, Hnames, !Set_from_In. simpl.
    split; intros [H|H]; auto.
  - pose proof (Rendered_verbatim params _ body rest _ _ Htok Hv Hr) as Hspec.
    destruct (Rendered_functional _ _ _ _ Hr' _ _ Hspec) as [Hout Hnames].
    split; [exact Hout|].
    intros x. rewrite Hu', Hu, Hnames. reflexivity.
Qed.

(** C7. The claim's two examples hold: ["{{x}}"] with no argument is
    returned unchanged with an empty used set, and with [x = 5] it
    renders as ["5"] with used set [{x}]. But the callback tests
    [trimmedName in params], which the members inherited from
    [Object.prototype] pass as well: with the arguments [{x: 1}], the
    names [toString] and [constructor] are not keys of the arguments, and
    yet their placeholders are not left as they are: they are replaced by
    the text of the inherited function, and the names are recorded as
    used. *)
Theorem processTemplate_substitutes_inherited_names :
  let params := [("x", VNum 1)] in
  processTemplate (Some "{{x}}") [] = mkProcessed "{{x}}" [] /\
  processTemplate (Some "{{x}}") [("x", VNum 5)] = mkProcessed "5" ["x"] /\
  lookup "toString" params = None /\
  lookup "constructor" params = None /\
  processTemplate (Some "{{toString}}") params
  = mkProcessed "function toString() { [native code] }" ["toString"] /\
  processTemplate (Some "{{y}} {{ constructor }} {{x}}") params
  = mkProcessed "{{y}} function Object() { [native code] } 1" ["constructor"; "x"].
Proof. repeat split. Qed.

End PromptFacts.

(* ===================================================================== *)
(** * The tools list of a declaration *)
(* ===================================================================== *)

Module Listing.
Import JS Config.

(** [value || ""] on an optional string. *)
Definition orEmpty (s : option string) : option string :=
  if truthy_string s then s else Some EmptyString.

(** [value || false] on an optional boolean. *)
Definition orFalse (b : option bool) : option bool :=
  if truthy_bool b then b else Some false.

(** The callback of [Object.entries(tools).map] in [formatToolsList]. *)
Definition formatEntry (name : string) (value : ToolEntry) : Prompt.ToolItem :=
  match value with
  | Flat description => Prompt.mkToolItem name (Some description) None None
  | Full config =>
      Prompt.mkToolItem name
        (orEmpty (tool_description config))
        (orEmpty (tool_prompt config))
        (orFalse (tool_optional config))
  end.

(** [formatToolsList] *)
Definition formatToolsList (tools : option Tools) : list Prompt.ToolItem :=
  match tools with
  | None => []
  | Some (ToolsString names) =>
      if String.eqb (trim names) EmptyString then
        [Prompt.mkToolItem EmptyString (Some EmptyString) None None]
      else
        map (fun t => Prompt.mkToolItem (trim t) (Some EmptyString) None None)
          (split_comma names)
  | Some (ToolsObject entries) =>
      map (fun kv => formatEntry (fst kv) (snd kv)) entries
  end.

End Listing.

(* ===================================================================== *)
(** * Loading presets *)
(* ===================================================================== *)

Module Presets.
Import JS Config.

(** What reading a file and [yaml.load] give: a declaration set, a value
    that is not an object, or an exception. *)
Inductive FileResult : Type :=
| Parsed (config : DevToolsConfig)
| NotAnObject
| Unreadable.

(** The presets directory as [fs.readdirSync] lists it, with what each
    file holds. *)
Definition Directory : Type := list (string * FileResult).

(** [file.endsWith(suffix)] *)
Fixpoint endsWith (suffix file : string) : bool :=
  String.eqb file suffix ||
  match file with
  | EmptyString => false
  | String _ rest => endsWith suffix rest
  end.

(** [file.slice(0, file.length - n)] *)
Definition dropLast (n : nat) (file : string) : string :=
  String.substring 0 (String.length file - n) file.

(** [path.basename(file, path.extname(file))] for a file name that ends
    with [extension]: the extension of a name is what starts at its last
    dot, unless this dot is the first character. *)
Definition withoutExtension (extension file : string) : string :=
  if String.eqb file extension then file
  else dropLast (String.length extension) file.

(** The callback of [.map] in [listAvailablePresets], on a name kept by
    the filter. *)
Definition presetName (file : string) : string :=
  if endsWith ".yaml" file then withoutExtension ".yaml" file
  else withoutExtension ".yml" file.

(** [listAvailablePresets]; [None] is a presets directory that does not
    exist. *)
Definition listAvailablePresets (presetsDir : option Directory) : list string :=
  match presetsDir with
  | None => []
  | Some files =>
      map presetName
        (filter (fun file => endsWith ".yaml" file || endsWith ".yml" file)
           (keys files))
  end.

(** [loadPresetConfig] on a file of the presets directory. *)
Definition loadPresetConfig (presetsDir : option Directory) (file : string)
  : DevToolsConfig :=
  match presetsDir with
  | None => []
  | Some files =>
      match lookup file files with
      | Some (Parsed config) => config
      | _ => []
      end
  end.

(** The body of the loop of [loadPresetConfigs]. *)
Definition loadPreset (presetsDir : option Directory) (availablePresets : list string)
  (mergedConfig : DevToolsConfig) (preset : string) : DevToolsConfig :=
  if negb (truthy_string (Some preset)) then mergedConfig
  else if negb (Schema.includes availablePresets preset) then mergedConfig
  else mergeConfigs mergedConfig (loadPresetConfig presetsDir (preset ++ ".yaml")).

(** [loadPresetConfigs] *)
Definition loadPresetConfigs (presetsDir : option Directory) (presets : list string)
  : DevToolsConfig :=
  let availablePresets := listAvailablePresets presetsDir in
  fold_left (loadPreset presetsDir availablePresets) presets [].

End Presets.

(* ===================================================================== *)
(** * Further properties of the compilers and of validation *)
(* ===================================================================== *)

Module CompilerFacts.
Import JS Schema Config SchemaFacts ConfigFacts.

#[local] Arguments includes : simpl never.

(** ** Description and default on the wire *)

Lemma objectSchema_plain props req :
  schema_description (objectSchema props req) = None /\
  schema_default (objectSchema props req) = None /\
  schema_properties (objectSchema props req) = Some props /\
  schema_type (objectSchema props req) = Some "object" /\
  schema_items (objectSchema props req) = None /\
  schema_enum (objectSchema props req) = None.
Proof. destruct req; repeat split. Qed.

(** X1. The wire schema of every shape, whatever its tag, carries the
    shape's default, and its description unless that is absent or the
    empty string. *)
Theorem wire_schema_copies_description_and_default :
  forall p : ParameterConfig,
    schema_default (convertParameterToJsonSchema p) = default p /\
    schema_description (convertParameterToJsonSchema p)
    = if truthy_string (Schema.description p) then Schema.description p else None.
Proof.
  intros [ty desc req dflt en it props]. cbn [default Schema.description].
  assert (H : forall s, schema_default s = None -> schema_description s = None ->
                        schema_default (copyMetadata desc dflt s) = dflt /\
                        schema_description (copyMetadata desc dflt s)
                        = if truthy_string desc then desc else None).
  { intros s H1 H2. split.
    - now apply copyMetadata_default.
    - now apply copyMetadata_description. }
  cbn [convertParameterToJsonSchema]. apply H;
    repeat match goal with
           | |- context [if type_is ty ?tag then _ else _] =>
               destruct (type_is ty tag)
           end; try reflexivity.
  - destruct it; reflexivity.
  - destruct props as [ps|]; [|reflexivity]. destruct (requiredNames ps); reflexivity.
  - destruct en as [[|[] ?]|]; reflexivity.
  - destruct it; reflexivity.
  - destruct props as [ps|]; [|reflexivity]. destruct (requiredNames ps); reflexivity.
  - destruct en as [[|[] ?]|]; reflexivity.
Qed.

(** ** Validated declarations compile to typed schemas *)

(** The type names of JSON Schema that the wire compiler writes. *)
Definition wireTypes : list string :=
  ["string"; "number"; "boolean"; "array"; "object"].

(** Every node of the schema, through [items] and [properties], has one
    of these types. *)
Fixpoint typedThroughout (s : JsonSchema) : bool :=
  match s with
  | mkJsonSchema ty it props _ _ _ _ _ =>
      match ty with
      | Some t => includes wireTypes t
      | None => false
      end
      && match it with
         | Some i => typedThroughout i
         | None => true
         end
      && match props with
         | Some ps =>
             forallb (fun kv : string * JsonSchema => typedThroughout (snd kv)) ps
         | None => true
         end
  end.

Lemma typedThroughout_copyMetadata desc dflt s :
  typedThroughout (copyMetadata desc dflt s) = typedThroughout s.
Proof. destruct s, desc as [[|c d]|], dflt; reflexivity. Qed.

Lemma typedThroughout_properties (parameters : list (string * ParameterConfig)) :
  Forall (fun np => typedThroughout (convertParameterToJsonSchema (snd np)) = true)
    parameters ->
  forallb (fun kv : string * JsonSchema => typedThroughout (snd kv))
    (map (fun np => (fst np, convertParameterToJsonSchema (snd np))) parameters) = true.
Proof.
  induction 1 as [|[n p] rest Hp _ IH]; simpl; [reflexivity|].
  simpl in Hp. now rewrite Hp, IH.
Qed.

Lemma sound_shape_typed :
  forall p,
    (forall q, Declared p q -> sound q = true) ->
    typedThroughout (convertParameterToJsonSchema p) = true.
Proof.
  induction p as [ty desc req dflt en it props IHit IHprops]
    using ParameterConfig_nested_ind.
  intros Hall.
  assert (Hp : sound (mkParameterConfig ty desc req dflt en it props) = true)
    by (apply Hall; constructor).
  unfold sound in Hp. apply andb_true_iff in Hp as [Hrec _].
  apply recognized_spec in Hrec as (t & Ht & Hin). simpl in Ht.
  subst ty. simpl in Hin.
  destruct Hin as [<-|[<-|[<-|[<-|[<-|[<-|[]]]]]]];
    simpl; rewrite typedThroughout_copyMetadata; try reflexivity.
  - destruct it as [i|]; [|reflexivity]. simpl.
    rewrite (IHit i eq_refl); [reflexivity|].
    intros q Hq. apply Hall. now apply (Declared_item _ i q).
  - destruct props as [ps|]; [|reflexivity].
    assert (Hps : forallb (fun kv : string * JsonSchema => typedThroughout (snd kv))
                    (map (fun np => (fst np, convertParameterToJsonSchema (snd np))) ps)
                  = true).
    { apply typedThroughout_properties. specialize (IHprops ps eq_refl).
      rewrite Forall_forall in *. intros [n r] Hin. simpl.
      apply (IHprops (n, r) Hin). intros q Hq. apply Hall.
      now apply (Declared_property _ ps n r q). }
    destruct (objectSchema_plain
                (map (fun np => (fst np, convertParameterToJsonSchema (snd np))) ps)
                (requiredNames ps)) as (_ & _ & Hprops & _).
    rewrite Hprops. rewrite objectSchema_required.
    destruct (requiredNames ps); simpl; now rewrite Hps.
  - destruct en as [[|[] ?]|]; reflexivity.
Qed.

(** X2. When [validateToolConfig] accepts a tool, the wire schema of its
    parameters has a JSON Schema type on every node, at every depth: the
    wire compiler never leaves a node without a type there. *)
Theorem validated_parameters_have_typed_schema :
  forall (config : DevToolsConfig) (toolName : string) (toolConfig : PromptConfig)
         (params : list (string * ParameterConfig)),
    validateToolConfig config toolName = None ->
    lookup toolName config = Some toolConfig ->
    parameters toolConfig = Some params ->
    typedThroughout (convertParametersToJsonSchema params) = true.
Proof.
  intros config toolName toolConfig params Hvalid Hfound Hparams.
  unfold validateToolConfig in Hvalid. rewrite Hfound, Hparams in Hvalid.
  rewrite validateParameters_None in Hvalid.
  unfold convertParametersToJsonSchema.
  destruct (objectSchema_plain
              (map (fun np => (fst np, convertParameterToJsonSchema (snd np))) params)
              (requiredNames params)) as (_ & _ & Hprops & Hty & Hit & _).
  destruct (objectSchema _ _) as [ty it props r a e d f]. simpl in *. subst.
  simpl. apply typedThroughout_properties, Forall_forall.
  intros [n p] Hin. simpl. apply sound_shape_typed.
  intros q Hq. now apply (Hvalid n p q).
Qed.

Lemma validated_parameters_have_typed_schema_witness :
  let params :=
    [("tags", mkParameterConfig (Some "array") None None None None None None);
     ("level", mkParameterConfig (Some "enum") None (Some true) None
                 (Some [ENum 1; ENum 2]) None None)] in
  typedThroughout (convertParametersToJsonSchema params) = true.
Proof.
  intros params.
  apply (validated_parameters_have_typed_schema
           [("t", mkPromptConfig None None None None None None None (Some params))]
           "t" (mkPromptConfig None None None None None None None (Some params)));
    reflexivity.
Defined.

(** X3. [validateToolConfig] returns [null] in exactly two cases: the
    tool is a key of the configuration and every shape it declares, at
    every depth, has a recognized type and, if an enum, a non-empty value
    list; or the tool is not a key of the configuration but its name is a
    member of [Object.prototype], which the read [config[toolName]]
    finds. Every other unknown tool name is an error. *)
Theorem validateToolConfig_null_iff :
  forall (config : DevToolsConfig) (toolName : string),
    validateToolConfig config toolName = None <->
    (exists toolConfig,
        lookup toolName config = Some toolConfig /\
        forall params n p q,
          parameters toolConfig = Some params -> In (n, p) params ->
          Declared p q -> wellDeclared q) \/
    (lookup toolName config = None /\ isInherited toolName = true).
Proof.
  intros config toolName. unfold validateToolConfig. split.
  - destruct (lookup toolName config) as [toolConfig|].
    + intros H. left. exists toolConfig. split; [reflexivity|].
      intros params n p q Hparams Hin Hq. rewrite Hparams in H.
      rewrite validateParameters_None in H.
      apply sound_wellDeclared. now apply (H n p q).
    + destruct (isInherited toolName); [auto | discriminate].
  - intros [(toolConfig & -> & Hall) | [-> ->]]; [|reflexivity].
    destruct (parameters toolConfig) as [params|]; [|reflexivity].
    apply validateParameters_None. intros n p q Hin Hq.
    apply sound_wellDeclared. now apply (Hall params n p q).
Qed.

(** X4. Validation looks below a shape only through the [properties] of
    an object and the [items] of an array: a tool whose parameters are
    all tagged string, number or boolean is accepted whatever their
    [enum], [items] and [properties] fields hold. *)
Theorem validation_ignores_fields_of_scalars :
  forall (config : DevToolsConfig) (toolName : string) (toolConfig : PromptConfig)
         (params : list (string * ParameterConfig)),
    lookup toolName config = Some toolConfig ->
    parameters toolConfig = Some params ->
    (forall n p, In (n, p) params ->
                 In (type p) [Some "string"; Some "number"; Some "boolean"]) ->
    validateToolConfig config toolName = None.
Proof.
  intros config toolName toolConfig params Hfound Hparams Hscalar.
  unfold validateToolConfig. rewrite Hfound, Hparams. clear Hfound Hparams.
  induction params as [|[n p] rest IH]; simpl; [reflexivity|].
  rewrite orElse_None. split.
  - assert (Hp : In (type p) [Some "string"; Some "number"; Some "boolean"])
      by (apply (Hscalar n); now left).
    destruct p as [ty desc req dflt en it props]. simpl in Hp.
    destruct Hp as [<-|[<-|[<-|[]]]]; reflexivity.
  - apply IH. intros m q Hin. apply (Hscalar m). now right.
Qed.

Lemma validation_ignores_fields_of_scalars_witness :
  let bogus := mkParameterConfig (Some "bogus") None None None None None None in
  let p := mkParameterConfig (Some "string") None None None (Some [])
             (Some bogus) (Some [("x", bogus)]) in
  validateToolConfig
    [("t", mkPromptConfig None None None None None None None (Some [("p", p)]))] "t"
  = None.
Proof.
  intros bogus p.
  apply (validation_ignores_fields_of_scalars
           [("t", mkPromptConfig None None None None None None None (Some [("p", p)]))]
           "t" (mkPromptConfig None None None None None None None (Some [("p", p)]))
           [("p", p)] eq_refl eq_refl).
  intros n q [Heq|[]]. injection Heq as <- <-. simpl. now left.
Defined.

(** ** The wire schema and the validator agree *)

(** The test of the JSON Schema keyword [type]; what is not JSON data has
    none of its types. *)
Definition hasType (t : string) (v : value) : bool :=
  match v with
  | VNull => String.eqb t "null"
  | VBool _ => String.eqb t "boolean"
  | VNum _ => String.eqb t "number"
  | VStr _ => String.eqb t "string"
  | VArr _ => String.eqb t "array"
  | VObj _ => String.eqb t "object"
  | VFunction _ => false
  | VObjectPrototype => false
  end.

(** JSON data, which is what the arguments of a call hold: no function
    and no prototype object, at any depth. *)
Fixpoint isJson (v : value) : bool :=
  match v with
  | VArr elems => forallb isJson elems
  | VObj fields => forallb (fun kv : string * value => isJson (snd kv)) fields
  | VFunction _ => false
  | VObjectPrototype => false
  | _ => true
  end.

(** Validity of a value against a wire schema, by the JSON Schema
    keywords that the wire compiler writes: [type], [enum], [items],
    [properties] and [required]; [additionalProperties: true],
    [description] and [default] constrain nothing. *)
Fixpoint validates (s : JsonSchema) (v : value) {struct s} : bool :=
  match s with
  | mkJsonSchema ty it props req _ en _ _ =>
      match ty with
      | Some t => hasType t v
      | None => true
      end
      && match en with
         | Some literals => existsb (strictEquals v) literals
         | None => true
         end
      && match it, v with
         | Some i, VArr elems => forallb (validates i) elems
         | _, _ => true
         end
      && match props, v with
         | Some ps, VObj fields =>
             forallb (fun kv : string * JsonSchema =>
                        match lookup (fst kv) fields with
                        | Some x => validates (snd kv) x
                        | None => true
                        end) ps
         | _, _ => true
         end
      && match req, v with
         | Some names, VObj fields =>
             forallb (fun n => match lookup n fields with
                               | Some _ => true
                               | None => false
                               end) names
         | _, _ => true
         end
  end.

Definition sameKind (a b : EnumValue) : bool :=
  match a, b with
  | ENum _, ENum _ => true
  | EStr _, EStr _ => true
  | _, _ => false
  end.

(** All values of the list have the kind of the first. *)
Definition homogeneous (l : list EnumValue) : bool :=
  match l with
  | [] => true
  | first :: rest => forallb (sameKind first) rest
  end.

(** A shape on which the two compilers are meant to meet: recognized
    tag, non-empty enum of one kind, no property that is required and has
    a default, and no property named like a member of [Object.prototype],
    which the validator would find on every object. *)
Definition regular (q : ParameterConfig) : Prop :=
  sound q = true /\
  (forall l, type q = Some "enum" -> enum q = Some l -> homogeneous l = true) /\
  (forall ps n r,
      type q = Some "object" -> properties q = Some ps -> In (n, r) ps ->
      required r = Some true -> default r = None) /\
  (forall ps n r,
      type q = Some "object" -> properties q = Some ps -> In (n, r) ps ->
      isInherited n = false).

Lemma forallb_pointwise {A : Type} (f g : A -> bool) (l : list A) :
  (forall x, f x = g x) -> forallb f l = forallb g l.
Proof.
  intros H. induction l as [|x l IH]; simpl; [reflexivity|]. now rewrite H, IH.
Qed.

Lemma forallb_pointwise_in {A : Type} (f g : A -> bool) (l : list A) :
  (forall x, In x l -> f x = g x) -> forallb f l = forallb g l.
Proof.
  induction l as [|x l IH]; intros H; simpl; [reflexivity|].
  rewrite (H x (or_introl eq_refl)), IH; [reflexivity|].
  intros y Hy. apply H. now right.
Qed.

(** A name that is no member of [Object.prototype] is read from the own
    properties alone. *)
Lemma get_own (k : string) (m : list (string * value)) :
  isInherited k = false -> get k m = lookup k m.
Proof.
  intros H. unfold get, inheritedMember.
  destruct (lookup k m); [reflexivity|]. rewrite H.
  destruct (String.eqb k "__proto__") eqn:E; [|reflexivity].
  apply String.eqb_eq in E. subst k. discriminate H.
Qed.

Lemma isJson_field (k : string) (x : value) (fields : list (string * value)) :
  forallb (fun kv : string * value => isJson (snd kv)) fields = true ->
  lookup k fields = Some x -> isJson x = true.
Proof.
  induction fields as [|[k' a'] fields IH]; simpl; [discriminate|].
  intros H. apply andb_true_iff in H as [Ha Hrest].
  destruct (String.eqb k k'); [|now apply IH].
  intros Heq. now injection Heq as <-.
Qed.

Lemma validates_copyMetadata desc dflt s v :
  validates (copyMetadata desc dflt s) v = validates s v.
Proof. destruct s, desc as [[|c d]|], dflt; reflexivity. Qed.

Lemma validates_scalar t v :
  validates (set_type t emptySchema) v = hasType t v.
Proof. simpl. now rewrite !andb_true_r. Qed.

Lemma validates_array i v :
  validates (set_items i (set_type "array" emptySchema)) v
  = match v with
    | VArr elems => forallb (validates i) elems
    | _ => false
    end.
Proof. destruct v; simpl; rewrite ?andb_true_r; reflexivity. Qed.

Lemma validates_enum t l v :
  validates (set_enum l (set_type t emptySchema)) v
  = hasType t v && existsb (strictEquals v) l.
Proof. simpl. now rewrite !andb_true_r. Qed.

Lemma validates_objectSchema props req v :
  validates (objectSchema props req) v
  = match v with
    | VObj fields =>
        forallb (fun kv : string * JsonSchema =>
                   match lookup (fst kv) fields with
                   | Some x => validates (snd kv) x
                   | None => true
                   end) props
        && forallb (fun n => match lookup n fields with
                             | Some _ => true
                             | None => false
                             end) req
    | _ => false
    end.
Proof.
  destruct req as [|r rs], v; simpl; rewrite ?andb_true_r; reflexivity.
Qed.

Lemma accepts_literals_bool l v :
  accepts (ZUnion (map ZLiteral l)) (Some v) = existsb (strictEquals v) l.
Proof. induction l as [|e l IH]; simpl in *; [reflexivity | now rewrite IH]. Qed.

Lemma numeric_literals_are_numbers l v :
  (forall e, In e l -> exists n, e = ENum n) ->
  existsb (strictEquals v) l = hasType "number" v && existsb (strictEquals v) l.
Proof.
  intros Hnum. destruct (existsb (strictEquals v) l) eqn:E;
    [|now rewrite andb_false_r].
  apply existsb_exists in E as (e & He & Heq).
  destruct (Hnum e He) as (n & ->). destruct v; try discriminate Heq. reflexivity.
Qed.

Lemma string_enum_agrees l v :
  accepts (ZEnum l) (Some v) = hasType "string" v && existsb (strictEquals v) l.
Proof.
  destruct v; reflexivity.
Qed.

Lemma homogeneous_numeric n rest :
  homogeneous (ENum n :: rest) = true ->
  forall e, In e (ENum n :: rest) -> exists m, e = ENum m.
Proof.
  simpl. rewrite forallb_forall. intros H e [<-|He]; [eauto|].
  specialize (H e He). destruct e; [eauto | discriminate].
Qed.

(** The checks of one property on both sides. *)
Lemma properties_agree fields (ps : list (string * ParameterConfig)) :
  forallb (fun kv : string * value => isJson (snd kv)) fields = true ->
  (forall n r, In (n, r) ps ->
     (forall x, isJson x = true ->
                accepts (convertParameterToZodSchema r) (Some x)
                = validates (convertParameterToJsonSchema r) x) /\
     (required r = Some true -> default r = None) /\
     isInherited n = false) ->
  forallb (fun np => accepts (propertyValidator (snd np)) (get (fst np) fields)) ps
  = forallb (fun kv : string * JsonSchema =>
               match lookup (fst kv) fields with
               | Some x => validates (snd kv) x
               | None => true
               end)
      (map (fun np => (fst np, convertParameterToJsonSchema (snd np))) ps)
    && forallb (fun n => match lookup n fields with
                         | Some _ => true
                         | None => false
                         end) (requiredNames ps).
Proof.
  intros Hjson.
  induction ps as [|[n r] ps IH]; intros H; [reflexivity|].
  assert (Hrest : forall m q, In (m, q) ps ->
            (forall x, isJson x = true ->
                       accepts (convertParameterToZodSchema q) (Some x)
                       = validates (convertParameterToJsonSchema q) x) /\
            (required q = Some true -> default q = None) /\
            isInherited m = false)
    by (intros m q Hin; apply (H m q); now right).
  destruct (H n r (or_introl eq_refl)) as (Hagree & Hdefault & Hname).
  cbn [forallb map fst snd]. rewrite (IH Hrest), (get_own n fields Hname).
  unfold requiredNames. cbn [filter snd].
  unfold propertyValidator, optionalUnlessRequired.
  assert (Habsent : required r = Some true ->
                    accepts (convertParameterToZodSchema r) None = false)
    by (intros Hreq; apply rejects_absent; auto).
  destruct (truthy_bool (required r)) eqn:Hreq; cbn [map fst forallb];
    destruct (lookup n fields) as [x|] eqn:Hx; cbn [accepts].
  - rewrite (Hagree x (isJson_field n x fields Hjson Hx)).
    now rewrite andb_true_l, andb_assoc.
  - rewrite Habsent; [now rewrite andb_false_r|].
    destruct (required r) as [[|]|]; [reflexivity | discriminate | discriminate].
  - rewrite (Hagree x (isJson_field n x fields Hjson Hx)).
    now rewrite andb_assoc.
  - reflexivity.
Qed.

Lemma compilers_agree_on_regular_shapes :
  forall p,
    (forall q, Declared p q -> regular q) ->
    forall v, isJson v = true ->
              accepts (convertParameterToZodSchema p) (Some v)
              = validates (convertParameterToJsonSchema p) v.
Proof.
  induction p as [ty desc req dflt en it props IHit IHprops]
    using ParameterConfig_nested_ind.
  intros Hall v Hjson.
  destruct (Hall _ (Declared_itself _)) as (Hsound & Hkind & Hdefaults & Hnames).
  unfold sound in Hsound. apply andb_true_iff in Hsound as [Hrec Henum].
  apply recognized_spec in Hrec as (t & Ht & Hin). simpl in Ht. subst ty.
  simpl in Hin.
  destruct Hin as [<-|[<-|[<-|[<-|[<-|[<-|[]]]]]]];
    cbn [convertParameterToZodSchema convertParameterToJsonSchema type_is
         String.eqb Ascii.eqb Bool.eqb];
    rewrite attachMetadata_present, validates_copyMetadata.
  - rewrite validates_scalar. destruct v; reflexivity.
  - rewrite validates_scalar. destruct v; reflexivity.
  - rewrite validates_scalar. destruct v; reflexivity.
  - destruct it as [i|]; rewrite validates_array.
    + destruct v; try reflexivity. cbn [accepts]. apply forallb_pointwise_in.
      intros x Hx. apply (IHit i eq_refl).
      * intros q Hq. apply Hall. now apply (Declared_item _ i q).
      * cbn [isJson] in Hjson. rewrite forallb_forall in Hjson. now apply Hjson.
    + destruct v; try reflexivity. cbn [accepts]. apply forallb_pointwise.
      intros x. rewrite validates_scalar. destruct x; reflexivity.
  - destruct props as [ps|].
    + destruct (objectSchema_plain
                  (map (fun np => (fst np, convertParameterToJsonSchema (snd np))) ps)
                  (requiredNames ps)) as (_ & _ & Hprops & _).
      rewrite Hprops, objectSchema_required.
      replace (match
                  match requiredNames ps with
                  | [] => None
                  | _ :: _ => Some (requiredNames ps)
                  end
                with
                | Some (r :: rs) =>
                    set_required (r :: rs)
                      (set_properties
                         (map (fun np => (fst np, convertParameterToJsonSchema (snd np))) ps)
                         (set_type "object" emptySchema))
                | _ =>
                    set_properties
                      (map (fun np => (fst np, convertParameterToJsonSchema (snd np))) ps)
                      (set_type "object" emptySchema)
                end)
        with (objectSchema
                (map (fun np => (fst np, convertParameterToJsonSchema (snd np))) ps)
                (requiredNames ps))
        by (unfold objectSchema; destruct (requiredNames ps); reflexivity).
      rewrite validates_objectSchema.
      destruct v; try reflexivity; try discriminate Hjson.
      cbn [accepts].
      rewrite <- (properties_agree fields ps).
      * clear. induction ps as [|[n r] ps IH]; simpl; [reflexivity|].
        now rewrite IH.
      * exact Hjson.
      * intros n r Hin. split; [|split].
        -- intros x Hx. specialize (IHprops ps eq_refl).
           rewrite Forall_forall in IHprops.
           apply (IHprops (n, r) Hin); [|exact Hx]. intros q Hq. apply Hall.
           now apply (Declared_property _ ps n r q).
        -- intros Hreq. now apply (Hdefaults ps n r).
        -- now apply (Hnames ps n r).
    + destruct v; try reflexivity; try discriminate Hjson. simpl.
      clear. induction fields as [|kv fields IH]; simpl; [reflexivity | exact IH].
  - unfold enumerated in Henum. simpl in Henum.
    destruct en as [[|[n|s] rest]|]; try discriminate Henum;
      cbn [enumValidator enumSchema]; rewrite validates_enum.
    + rewrite accepts_literals_bool. apply numeric_literals_are_numbers.
      apply homogeneous_numeric. now apply Hkind.
    + apply string_enum_agrees.
Qed.

(** X5. On a tool's parameters that are regular throughout (recognized
    tags, non-empty enums of one kind, no required property with a
    default, no property named like a member of [Object.prototype]), the
    validator accepts a JSON value exactly when the value is valid
    against the wire schema. *)
Theorem wire_schema_and_validator_agree :
  forall (params : list (string * ParameterConfig)),
    (forall n p q, In (n, p) params -> Declared p q -> regular q) ->
    (forall n p, In (n, p) params -> required p = Some true -> default p = None) ->
    (forall n p, In (n, p) params -> isInherited n = false) ->
    forall v : value,
      isJson v = true ->
      accepts (ZObject (convertParametersToZodSchema params)) (Some v)
      = validates (convertParametersToJsonSchema params) v.
Proof.
  intros params Hregular Hdefaults Hnames v Hjson.
  unfold convertParametersToJsonSchema. rewrite validates_objectSchema.
  destruct v; try reflexivity; try discriminate Hjson.
  rewrite convertParametersToZodSchema_accepts.
  apply properties_agree; [exact Hjson|]. intros n r Hin. split; [|split].
  - intros x Hx. apply compilers_agree_on_regular_shapes; [|exact Hx].
    intros q Hq. now apply (Hregular n r q).
  - now apply (Hdefaults n r).
  - now apply (Hnames n r).
Qed.


Lemma wire_schema_and_validator_agree_witness :
  let params :=
    [("level", mkParameterConfig (Some "enum") None (Some true) None
                 (Some [ENum 1; ENum 2; ENum 3]) None None);
     ("name", mkParameterConfig (Some "string") None None (Some (VStr "x"))
                None None None)] in
  accepts (ZObject (convertParametersToZodSchema params))
    (Some (VObj [("level", VNum 2)]))
  = validates (convertParametersToJsonSchema params) (VObj [("level", VNum 2)]) /\
  accepts (ZObject (convertParametersToZodSchema params)) (Some (VObj []))
  = validates (convertParametersToJsonSchema params) (VObj []).
Proof.
  intros params.
  assert (Hregular : forall n p q, In (n, p) params -> Declared p q -> regular q).
  { intros n p q [Heq|[Heq|[]]] Hq; injection Heq as <- <-;
      inversion Hq; subst; try discriminate;
      (split; [reflexivity|]); (split; [|split]).
    - intros l _ Hl. injection Hl as <-. reflexivity.
    - intros ps m r Hty. discriminate Hty.
    - intros ps m r Hty. discriminate Hty.
    - intros l Hty. discriminate Hty.
    - intros ps m r Hty. discriminate Hty.
    - intros ps m r Hty. discriminate Hty. }
  assert (Hdefaults : forall n p, In (n, p) params ->
                                  required p = Some true -> default p = None).
  { intros n p [Heq|[Heq|[]]] Hreq; injection Heq as <- <-;
      [reflexivity | discriminate Hreq]. }
  assert (Hnames : forall n p, In (n, p) params -> isInherited n = false).
  { intros n p [Heq|[Heq|[]]]; injection Heq as <- <-; reflexivity. }
  split; apply (wire_schema_and_validator_agree params Hregular Hdefaults Hnames);
    reflexivity.
Defined.


End CompilerFacts.

(* ===================================================================== *)
(** * Further properties of the merge *)
(* ===================================================================== *)

Module MergeFacts.
Import JS Config JSFacts ConfigFacts.

(** ** Assignment in a mapping *)

Section AssignFacts.
Context {A : Type}.

Lemma assign_fresh (k : string) (a : A) m :
  lookup k m = None -> assign k a m = (m ++ [(k, a)])%list.
Proof.
  induction m as [|[k' a'] m IH]; simpl; [reflexivity|].
  destruct (String.eqb k k'); [discriminate|]. intros H. now rewrite (IH H).
Qed.

Lemma assign_fixed (k : string) (a : A) m :
  lookup k m = Some a -> assign k a m = m.
Proof.
  induction m as [|[k' a'] m IH]; simpl; [discriminate|].
  destruct (String.eqb k k') eqn:E.
  - apply String.eqb_eq in E. subst. intros H. now injection H as ->.
  - intros H. now rewrite (IH H).
Qed.

Lemma lookup_In (k : string) (a : A) m :
  NoDup (keys m) -> In (k, a) m -> lookup k m = Some a.
Proof.
  induction m as [|[k' a'] m IH]; simpl; [contradiction|].
  intros Hnd [Heq|Hin]; inversion Hnd as [|? ? Hnot Hrest]; subst.
  - injection Heq as -> ->. now rewrite String.eqb_refl.
  - destruct (String.eqb k k') eqn:E; [|auto].
    apply String.eqb_eq in E. subst. exfalso. apply Hnot.
    change k' with (fst (k', a)). now apply in_map.
Qed.

(** [keys.includes(k)] *)
Definition hasKey (k : string) (m : list (string * A)) : bool :=
  existsb (String.eqb k) (keys m).

Lemma hasKey_In k m : hasKey k m = true <-> In k (keys m).
Proof.
  unfold hasKey. rewrite existsb_exists. split.
  - intros (x & Hx & Heq). apply String.eqb_eq in Heq. now subst.
  - intros H. exists k. split; [assumption | apply String.eqb_refl].
Qed.

Lemma hasKey_lookup k m : hasKey k m = false <-> lookup k m = None.
Proof.
  rewrite lookup_None, <- hasKey_In. destruct (hasKey k m); split; congruence.
Qed.

Lemma keys_assign_order (k : string) (a : A) m :
  keys (assign k a m) = if hasKey k m then keys m else (keys m ++ [k])%list.
Proof.
  destruct (hasKey k m) eqn:E.
  - induction m as [|[k' a'] m IH]; [discriminate|].
    unfold hasKey in E. simpl in *. destruct (String.eqb k k') eqn:Ek; simpl.
    + apply String.eqb_eq in Ek. now subst.
    + f_equal. now apply IH.
  - apply hasKey_lookup in E. rewrite (assign_fresh k a m E).
    unfold keys. now rewrite map_app.
Qed.

Variable combine : option A -> A -> A.

(** From a target without the keys of the source, the loop appends the
    source. *)
Lemma update_loop_appends (source : list (string * A)) :
  (forall a, combine None a = a) ->
  NoDup (keys source) ->
  forall target,
    (forall k, In k (keys source) -> ~ In k (keys target)) ->
    fold_left (update combine) source target = (target ++ source)%list.
Proof.
  intros Hnone. induction source as [|[k a] source IH]; intros Hnd target Hfresh;
    simpl.
  - now rewrite app_nil_r.
  - inversion Hnd as [|? ? Hnot Hrest]; subst.
    assert (Hk : lookup k target = None).
    { apply lookup_None. apply Hfresh. now left. }
    unfold update at 2. simpl. rewrite Hk, Hnone, (assign_fresh k a target Hk).
    rewrite (IH Hrest).
    + now rewrite <- app_assoc.
    + intros k' Hin. unfold keys. rewrite map_app, in_app_iff. simpl.
      intros [H|[H|[]]].
      * apply (Hfresh k'); [now right | assumption].
      * subst. contradiction.
Qed.

(** On a target that already holds the entries of the source, combined
    with themselves to no effect, the loop changes nothing. *)
Lemma update_loop_fixed (source target : list (string * A)) :
  (forall k a, In (k, a) source ->
               lookup k target = Some a /\ combine (Some a) a = a) ->
  fold_left (update combine) source target = target.
Proof.
  induction source as [|[k a] source IH]; intros H; simpl; [reflexivity|].
  destruct (H k a (or_introl eq_refl)) as [Hk Hsame].
  unfold update at 2. simpl. rewrite Hk, Hsame, (assign_fixed k a target Hk).
  apply IH. intros k' a' Hin. apply H. now right.
Qed.

(** The keys after the loop: those of the target in their order, then
    the new keys of the source in their order. *)
Lemma keys_update_loop (source : list (string * A)) :
  NoDup (keys source) ->
  forall target,
    keys (fold_left (update combine) source target)
    = (keys target
       ++ filter (fun k => negb (hasKey k target)) (keys source))%list.
Proof.
  induction source as [|[k a] source IH]; intros Hnd target; simpl.
  - now rewrite app_nil_r.
  - inversion Hnd as [|? ? Hnot Hrest]; subst. rewrite (IH Hrest).
    unfold update at 1 2. simpl. rewrite keys_assign_order.
    assert (Hsame : filter (fun k0 => negb (hasKey k0
                       (assign k (combine (lookup k target) a) target)))
                      (keys source)
                    = filter (fun k0 => negb (hasKey k0 target)) (keys source)).
    { apply filter_ext_in. intros k' Hin. f_equal.
      assert (Hne : k' <> k) by (intros ->; contradiction).
      destruct (hasKey k' target) eqn:E.
      - apply hasKey_In. apply keys_assign. right. now apply hasKey_In.
      - destruct (hasKey k' (assign k (combine (lookup k target) a) target))
          eqn:E'; [|reflexivity].
        apply hasKey_In, keys_assign in E' as [?|E']; [contradiction|].
        apply hasKey_In in E'. congruence. }
    rewrite Hsame. destruct (hasKey k target); simpl; [reflexivity|].
    now rewrite <- app_assoc.
Qed.
End AssignFacts.

(** ** Merging declaration sets *)

(** The keys of a mapping are all ordinary: none is a name of
    [Object.prototype] and none is a string of digits. On such keys the
    reads and writes of the merge concern own properties only, and new
    keys are enumerated last. *)
Definition ordinaryKeys {A : Type} (m : list (string * A)) : bool :=
  forallb ordinaryKey (keys m).

(** X6. Merging into the empty accumulator, as every loader starts,
    returns the overlay itself, when its keys are ordinary: same keys,
    same order, same records. *)
Theorem mergeConfigs_into_empty :
  forall source : DevToolsConfig,
    NoDup (keys source) ->
    ordinaryKeys source = true ->
    mergeConfigs [] source = source.
Proof.
  intros source Hnd _. rewrite mergeConfigs_as_loop.
  rewrite (update_loop_appends combinePrompt source); auto.
Qed.

Lemma mergeConfigs_into_empty_witness :
  let pc := mkPromptConfig (Some "p") None (Some (ToolsString "a, b")) None None
              None None None in
  mergeConfigs [] [("t", pc); ("u", pc)] = [("t", pc); ("u", pc)].
Proof.
  intros pc. apply mergeConfigs_into_empty; [|reflexivity].
  constructor; [simpl; intros [H|[]]; discriminate H|].
  constructor; [simpl; tauto | constructor].
Defined.

(** X7. When the keys of both sets are ordinary, the merged set lists
    the keys of the base in their order, followed by the keys that only
    the overlay has, in the overlay's order. *)
Theorem mergeConfigs_key_order :
  forall target source : DevToolsConfig,
    NoDup (keys source) ->
    ordinaryKeys target = true ->
    ordinaryKeys source = true ->
    keys (mergeConfigs target source)
    = (keys target ++ filter (fun k => negb (hasKey k target)) (keys source))%list.
Proof.
  intros target source Hnd _ _. rewrite mergeConfigs_as_loop.
  now apply keys_update_loop.
Qed.

Lemma mergeConfigs_key_order_witness :
  let pc := mkPromptConfig None None None None None None None None in
  keys (mergeConfigs [("a", pc); ("b", pc)] [("c", pc); ("a", pc); ("d", pc)])
  = ["a"; "b"; "c"; "d"].
Proof.
  intros pc.
  rewrite (mergeConfigs_key_order [("a", pc); ("b", pc)]
             [("c", pc); ("a", pc); ("d", pc)]); [reflexivity| |reflexivity..].
  repeat constructor; simpl; intuition discriminate.
Defined.

(** ** Merging a reference with itself *)

Lemma spread_same {A : Type} (x : option A) : spread x x = x.
Proof. destruct x; reflexivity. Qed.

Lemma spreadToolConfig_same c : spreadToolConfig c c = c.
Proof. destruct c. unfold spreadToolConfig. simpl. now rewrite !spread_same. Qed.

Lemma combineEntry_same e : combineEntry (Some e) e = e.
Proof. destruct e as [d|c]; simpl; [reflexivity|]. now rewrite spreadToolConfig_same. Qed.

Lemma existsb_eqb_In x (s : list string) : existsb (String.eqb x) s = true <-> In x s.
Proof.
  rewrite existsb_exists. split.
  - intros (y & Hy & Heq). apply String.eqb_eq in Heq. now subst.
  - intros H. exists x. split; [assumption | apply String.eqb_refl].
Qed.

Lemma Set_loop_absorbs xs : forall acc,
  (forall x, In x xs -> In x acc) ->
  fold_left (fun s x => Set_add x s) xs acc = acc.
Proof.
  induction xs as [|x xs IH]; intros acc H; simpl; [reflexivity|].
  assert (Hx : Set_add x acc = acc).
  { unfold Set_add.
    now rewrite (proj2 (existsb_eqb_In x acc) (H x (or_introl eq_refl))). }
  rewrite Hx. apply IH. intros y Hy. apply H. now right.
Qed.

Lemma Set_loop_appends xs : forall acc,
  NoDup (acc ++ xs) ->
  fold_left (fun s x => Set_add x s) xs acc = (acc ++ xs)%list.
Proof.
  induction xs as [|x xs IH]; intros acc H; simpl.
  - now rewrite app_nil_r.
  - assert (Hx : Set_add x acc = (acc ++ [x])%list).
    { unfold Set_add. destruct (existsb (String.eqb x) acc) eqn:E; [|reflexivity].
      apply existsb_eqb_In in E. apply NoDup_remove_2 in H.
      exfalso. apply H. apply in_or_app. now left. }
    rewrite Hx. rewrite IH; rewrite <- app_assoc; [reflexivity | exact H].
Qed.

(** A list without repetition, read twice into a set, is itself. *)
Lemma Set_from_twice xs : NoDup xs -> Set_from (xs ++ xs)%list = xs.
Proof.
  intros H. unfold Set_from. rewrite fold_left_app.
  rewrite (Set_loop_appends xs []) by exact H. simpl.
  now apply Set_loop_absorbs.
Qed.

Lemma mergeTools_object_self m :
  NoDup (keys m) ->
  mergeTools (Some (ToolsObject m)) (Some (ToolsObject m)) = Some (ToolsObject m).
Proof.
  intros Hnd.
  rewrite (mergeTools_objects (ToolsObject m) (ToolsObject m) eq_refl eq_refl
             (or_introl I)).
  simpl. rewrite update_loop_fixed; [reflexivity|].
  intros k e Hin. split; [now apply lookup_In | apply combineEntry_same].
Qed.

(** X8. A tool reference in object form with distinct keys, and a string
    reference produced by merging two non-empty strings (unless that
    string is empty), are returned unchanged when merged with
    themselves. *)
Theorem mergeTools_self_merge_stable :
  (forall m : list (string * ToolEntry),
      NoDup (keys m) ->
      mergeTools (Some (ToolsObject m)) (Some (ToolsObject m))
      = Some (ToolsObject m)) /\
  (forall a b merged : string,
      a <> EmptyString -> b <> EmptyString ->
      mergeTools (Some (ToolsString a)) (Some (ToolsString b))
      = Some (ToolsString merged) ->
      merged <> EmptyString ->
      mergeTools (Some (ToolsString merged)) (Some (ToolsString merged))
      = Some (ToolsString merged)).
Proof.
  split; [exact mergeTools_object_self|].
  intros a b merged Ha Hb Hmerge Hne.
  rewrite (mergeTools_strings a b Ha Hb) in Hmerge. injection Hmerge as <-.
  rewrite mergeTools_strings by assumption.
  rewrite !merged_names_read_back.
  rewrite Set_from_twice by apply Set_from_NoDup. reflexivity.
Qed.

Lemma mergeTools_self_merge_stable_witness :
  mergeTools (Some (ToolsString "a, b, c")) (Some (ToolsString "a, b, c"))
  = Some (ToolsString "a, b, c") /\
  mergeTools (Some (ToolsObject [("a", Flat "d")])) (Some (ToolsObject [("a", Flat "d")]))
  = Some (ToolsObject [("a", Flat "d")]).
Proof.
  destruct mergeTools_self_merge_stable as [Hobject Hstring]. split.
  - apply (Hstring "a,b" "b,c" "a, b, c"); [discriminate | discriminate | reflexivity
                                            | discriminate].
  - apply Hobject. constructor; [simpl; tauto | constructor].
Defined.

Lemma mergePrompt_same pc :
  mergeTools (tools pc) (tools pc) = tools pc -> mergePrompt pc pc = pc.
Proof.
  intros H. destruct pc. unfold mergePrompt. simpl in *.
  now rewrite H, !spread_same.
Qed.

(** X9. Merging a declaration set with itself, as when a source is
    loaded twice, returns it unchanged, provided each [tools] field is
    absent or in object form with distinct keys. *)
Theorem mergeConfigs_idempotent :
  forall config : DevToolsConfig,
    NoDup (keys config) ->
    (forall k pc, In (k, pc) config ->
                  tools pc = None \/
                  exists m, tools pc = Some (ToolsObject m) /\ NoDup (keys m)) ->
    mergeConfigs config config = config.
Proof.
  intros config Hnd Htools. rewrite mergeConfigs_as_loop.
  apply update_loop_fixed. intros k pc Hin. split; [now apply lookup_In|].
  unfold combinePrompt. apply mergePrompt_same.
  destruct (Htools k pc Hin) as [->|(m & -> & Hm)]; [reflexivity|].
  now apply mergeTools_object_self.
Qed.

Lemma mergeConfigs_idempotent_witness :
  let pc := mkPromptConfig (Some "p") None
              (Some (ToolsObject [("a", Flat "d")])) None None None None None in
  mergeConfigs [("t", pc)] [("t", pc)] = [("t", pc)].
Proof.
  intros pc. apply mergeConfigs_idempotent.
  - constructor; [simpl; tauto | constructor].
  - intros k q [Heq|[]]. injection Heq as <- <-. right.
    exists [("a", Flat "d")]. split; [reflexivity|].
    constructor; [simpl; tauto | constructor].
Defined.

(** X10. A string reference is not stable in general: merged with
    itself it is rewritten with normalized separators, so loading twice
    a source whose [tools] is a string changes that string. *)
Theorem mergeTools_string_self_merge_normalizes :
  forall s : string,
    s <> EmptyString ->
    mergeTools (Some (ToolsString s)) (Some (ToolsString s))
    = Some (ToolsString (join ", " (Set_from (trimmedNames s)))).
Proof.
  intros s Hs. rewrite (mergeTools_strings s s Hs Hs). do 3 f_equal.
  unfold Set_from. rewrite fold_left_app.
  apply Set_loop_absorbs. intros x Hx. apply Set_loop_In. now right.
Qed.

Lemma mergeTools_string_self_merge_normalizes_witness :
  mergeTools (Some (ToolsString "a,b,a")) (Some (ToolsString "a,b,a"))
  = Some (ToolsString "a, b").
Proof.
  rewrite mergeTools_string_self_merge_normalizes; [reflexivity | discriminate].
Defined.


End MergeFacts.

(* ===================================================================== *)
(** * Properties of the tools list and of its section *)
(* ===================================================================== *)

Module ListingFacts.
Import JS Config Listing JSFacts ConfigFacts PromptFacts MergeFacts.

(** ** The string form *)

Lemma trimEnd_empty_allSpace s : trimEnd s = EmptyString -> allSpace s = true.
Proof.
  induction s as [|c s IH]; simpl; [reflexivity|].
  destruct (trimEnd s); [|discriminate].
  destruct (isSpace c); [intros _; now apply IH | discriminate].
Qed.

Lemma allSpace_app a b : allSpace (a ++ b) = allSpace a && allSpace b.
Proof.
  induction a as [|c a IH]; simpl; [reflexivity|]. now rewrite IH, andb_assoc.
Qed.

Lemma trim_empty_allSpace s : trim s = EmptyString -> allSpace s = true.
Proof.
  unfold trim. intros H. apply trimEnd_empty_allSpace in H.
  destruct (trimStart_split s) as (ws & Hs & Hws).
  rewrite Hs, allSpace_app, Hws, H. reflexivity.
Qed.

Lemma isSpace_not_comma c : isSpace c = true -> Ascii.eqb c ","%char = false.
Proof.
  destruct c as [[] [] [] [] [] [] [] []]; intros H; try reflexivity;
    discriminate H.
Qed.

Lemma allSpace_commaFree s : allSpace s = true -> commaFree s = true.
Proof.
  induction s as [|c s IH]; simpl; [reflexivity|].
  intros H. apply andb_true_iff in H as [Hc Hs].
  now rewrite (isSpace_not_comma c Hc), (IH Hs).
Qed.

Definition nameOnly (n : string) : Prompt.ToolItem :=
  Prompt.mkToolItem n (Some EmptyString) None None.

Lemma formatToolsList_of_string s :
  formatToolsList (Some (ToolsString s)) = map nameOnly (trimmedNames s).
Proof.
  unfold formatToolsList, trimmedNames.
  destruct (String.eqb (trim s) EmptyString) eqn:E.
  - apply String.eqb_eq in E.
    pose proof (allSpace_commaFree s (trim_empty_allSpace s E)) as Hc.
    rewrite (split_comma_single s Hc). simpl. now rewrite E.
  - now rewrite map_map.
Qed.

(** X11. For every tools string, [formatToolsList] returns one entry per
    comma-separated segment, named by the trimmed segment and with an
    empty description; the special case for a blank string gives the same
    single empty-named entry that the general path would. *)
Theorem formatToolsList_string_entries :
  forall s : string,
    formatToolsList (Some (ToolsString s)) = map nameOnly (trimmedNames s) /\
    (trim s = EmptyString ->
     formatToolsList (Some (ToolsString s)) = [nameOnly EmptyString]
     /\ map (fun t => nameOnly (trim t)) (split_comma s) = [nameOnly EmptyString]).
Proof.
  intros s. split; [apply formatToolsList_of_string|].
  intros E.
  pose proof (allSpace_commaFree s (trim_empty_allSpace s E)) as Hc.
  split.
  - unfold formatToolsList. now rewrite E.
  - rewrite (split_comma_single s Hc). simpl. now rewrite E.
Qed.

Lemma formatToolsList_string_entries_witness :
  formatToolsList (Some (ToolsString "  ")) = [nameOnly EmptyString] /\
  map (fun t => nameOnly (trim t)) (split_comma "  ") = [nameOnly EmptyString].
Proof.
  destruct (formatToolsList_string_entries "  ") as [_ H]. apply H. reflexivity.
Defined.

(** ** Names after a merge *)

(** X12. After two non-empty tools strings are merged, the formatted
    list names each tool once: the trimmed names of the base in order of
    first occurrence, then the new names of the overlay. *)
Theorem merged_strings_list_each_tool_once :
  forall a b : string,
    a <> EmptyString -> b <> EmptyString ->
    let listed :=
      map Prompt.name
        (formatToolsList (mergeTools (Some (ToolsString a)) (Some (ToolsString b)))) in
    listed = Set_from (trimmedNames a ++ trimmedNames b)%list /\
    NoDup listed /\
    (forall x, In x listed <-> In x (trimmedNames a) \/ In x (trimmedNames b)).
Proof.
  intros a b Ha Hb listed. subst listed.
  rewrite (mergeTools_strings a b Ha Hb), formatToolsList_of_string.
  rewrite map_map. simpl. rewrite map_id, merged_names_read_back.
  split; [reflexivity|]. split; [apply Set_from_NoDup|].
  intros x. rewrite Set_from_In. apply in_app_iff.
Qed.

Lemma merged_strings_list_each_tool_once_witness :
  map Prompt.name
    (formatToolsList (mergeTools (Some (ToolsString "a, b")) (Some (ToolsString "b,c"))))
  = ["a"; "b"; "c"].
Proof.
  destruct (merged_strings_list_each_tool_once "a, b" "b,c") as [H _];
    [discriminate | discriminate | exact H].
Defined.

(** X13. After two object-form references with ordinary keys are merged,
    the formatted list names the tools of the base in their order, then
    the tools that only the overlay has, in the overlay's order. *)
Theorem merged_objects_list_order :
  forall t s : list (string * ToolEntry),
    NoDup (keys s) ->
    ordinaryKeys t = true ->
    ordinaryKeys s = true ->
    map Prompt.name
      (formatToolsList (mergeTools (Some (ToolsObject t)) (Some (ToolsObject s))))
    = (keys t ++ filter (fun k => negb (hasKey k t)) (keys s))%list.
Proof.
  intros t s Hnd _ _.
  rewrite (mergeTools_objects (ToolsObject t) (ToolsObject s) eq_refl eq_refl
             (or_introl I)).
  cbn [formatToolsList toObject]. rewrite map_map.
  rewrite <- (keys_update_loop combineEntry s Hnd t).
  unfold keys. apply map_ext. intros [k [d|c]]; reflexivity.
Qed.

Lemma merged_objects_list_order_witness :
  map Prompt.name
    (formatToolsList
       (mergeTools (Some (ToolsObject [("a", Flat "x"); ("b", Flat "y")]))
          (Some (ToolsObject [("c", Flat "z"); ("a", Flat "w")]))))
  = ["a"; "b"; "c"].
Proof.
  rewrite merged_objects_list_order; [reflexivity| |reflexivity..].
  repeat constructor; simpl; intuition discriminate.
Defined.

(** ** The section of a formatted list *)

Lemma length_append a b :
  String.length (a ++ b) = String.length a + String.length b.
Proof. induction a as [|c a IH]; simpl; [reflexivity | now rewrite IH]. Qed.

Lemma appendFormattedTools_longer baseText tool rest toolMode :
  String.length baseText
  < String.length (Prompt.appendFormattedTools baseText (tool :: rest) toolMode).
Proof.
  unfold Prompt.appendFormattedTools.
  destruct toolMode as [[]|];
    rewrite ?sequentialLoop_lines, ?situationalLoop_lines, !length_append;
    simpl; lia.
Qed.

(** X14. The prompt gets no tools section exactly when the declaration
    has no [tools] or an empty tools object; any tools string, the empty
    one included, produces a section. *)
Theorem tools_section_omitted_iff :
  forall (baseText : string) (tools : option Tools) (toolMode : option Prompt.ToolMode),
    Prompt.appendFormattedTools baseText (formatToolsList tools) toolMode = baseText
    <-> tools = None \/ tools = Some (ToolsObject []).
Proof.
  intros baseText tools toolMode. split.
  - intros H.
    destruct (formatToolsList tools) as [|tool rest] eqn:E.
    + destruct tools as [[s|[|kv m]]|]; auto; [|discriminate E].
      rewrite formatToolsList_of_string in E. unfold trimmedNames in E.
      pose proof (split_comma_nonempty s) as Hne.
      destruct (split_comma s); [contradiction | discriminate E].
    + pose proof (appendFormattedTools_longer baseText tool rest toolMode) as Hlen.
      rewrite H in Hlen. lia.
  - intros [->| ->]; reflexivity.
Qed.

Lemma sequentialLines_ext {A : Type} (f g : A -> Prompt.ToolItem) (l : list A) :
  (forall x, toolLine (f x) = toolLine (g x)) ->
  forall index, sequentialLines index (map f l) = sequentialLines index (map g l).
Proof.
  intros H. induction l as [|x l IH]; intros index; cbn [map sequentialLines];
    [reflexivity|].
  now rewrite H, IH.
Qed.

Lemma situationalLines_ext {A : Type} (f g : A -> Prompt.ToolItem) (l : list A) :
  (forall x, toolLine (f x) = toolLine (g x)) ->
  situationalLines (map f l) = situationalLines (map g l).
Proof.
  intros H. induction l as [|x l IH]; cbn [map situationalLines]; [reflexivity|].
  now rewrite H, IH.
Qed.

Lemma formatEntry_record_line n e :
  toolLine (formatEntry n (Full (recordOf e))) = toolLine (formatEntry n e).
Proof.
  destruct e as [[|c d]|config]; reflexivity.
Qed.

(** X15. Writing the flat entries of a tools object as records that
    carry the same description changes nothing in the rendered section,
    in either mode. *)
Theorem flat_entries_render_as_records :
  forall (baseText : string) (entries : list (string * ToolEntry))
         (toolMode : option Prompt.ToolMode),
    Prompt.appendFormattedTools baseText
      (formatToolsList
         (Some (ToolsObject
                  (map (fun kv => (fst kv, Full (recordOf (snd kv)))) entries))))
      toolMode
    = Prompt.appendFormattedTools baseText
        (formatToolsList (Some (ToolsObject entries))) toolMode.
Proof.
  intros baseText entries toolMode. cbn [formatToolsList]. rewrite map_map.
  cbn [fst snd].
  destruct entries as [|kv entries]; [reflexivity|].
  unfold Prompt.appendFormattedTools. cbn [map].
  destruct toolMode as [[]|];
    rewrite ?sequentialLoop_lines, ?situationalLoop_lines; do 2 f_equal.
  - change (sequentialLines 0
              (map (fun x => formatEntry (fst x) (Full (recordOf (snd x))))
                 (kv :: entries))
            = sequentialLines 0
                (map (fun x => formatEntry (fst x) (snd x)) (kv :: entries))).
    apply sequentialLines_ext. intros x. apply formatEntry_record_line.
  - change (situationalLines
              (map (fun x => formatEntry (fst x) (Full (recordOf (snd x))))
                 (kv :: entries))
            = situationalLines
                (map (fun x => formatEntry (fst x) (snd x)) (kv :: entries))).
    apply situationalLines_ext. intros x. apply formatEntry_record_line.
  - change (situationalLines
              (map (fun x => formatEntry (fst x) (Full (recordOf (snd x))))
                 (kv :: entries))
            = situationalLines
                (map (fun x => formatEntry (fst x) (snd x)) (kv :: entries))).
    apply situationalLines_ext. intros x. apply formatEntry_record_line.
Qed.


End ListingFacts.

(* ===================================================================== *)
(** * Further properties of the template *)
(* ===================================================================== *)

Module TemplateFacts.
Import JS Prompt JSFacts PromptFacts.

Lemma Rendered_names_are_properties params s out used :
  Rendered params s out used ->
  forall x, In x used -> exists v, get x params = Some v.
Proof.
  induction 1 as [| s body rest v out used Htok Hv _ IH
                  | s body rest out used Htok Hv _ IH
                  | c s out used Hno _ IH]; intros x Hx.
  - contradiction.
  - destruct Hx as [<-|Hx]; [eauto | auto].
  - auto.
  - auto.
Qed.

Lemma Rendered_nothing_used params s out used :
  Rendered params s out used -> used = [] -> out = s.
Proof.
  induction 1 as [| s body rest v out used Htok Hv _ IH
                  | s body rest out used Htok Hv _ IH
                  | c s out used Hno _ IH]; intros Hused.
  - reflexivity.
  - discriminate Hused.
  - destruct Htok as (-> & _). now rewrite (IH Hused).
  - now rewrite (IH Hused).
Qed.

Lemma occursIn_at_start x : occursIn "{{" ("{{" ++ x) = true.
Proof. simpl. destruct x; reflexivity. Qed.

Lemma Rendered_without_braces params s out used :
  Rendered params s out used ->
  occursIn "{{" s = false -> out = s /\ used = [].
Proof.
  induction 1 as [| s body rest v out used Htok Hv _ IH
                  | s body rest out used Htok Hv _ IH
                  | c s out used Hno _ IH]; intros Hfree.
  - auto.
  - destruct Htok as (-> & _). rewrite occursIn_at_start in Hfree.
    discriminate Hfree.
  - destruct Htok as (-> & _). rewrite occursIn_at_start in Hfree.
    discriminate Hfree.
  - simpl in Hfree. apply orb_false_iff in Hfree as [_ Hfree].
    destruct (IH Hfree) as [-> ->]. auto.
Qed.

Lemma Set_from_empty names : Set_from names = [] -> names = [].
Proof.
  destruct names as [|x names]; [reflexivity|]. intros H.
  assert (Hx : In x (Set_from (x :: names))) by (apply Set_from_In; now left).
  rewrite H in Hx. contradiction.
Qed.

Lemma inheritedMember_Some (k : string) (v : value) :
  inheritedMember k = Some v -> isInherited k = true.
Proof.
  unfold inheritedMember.
  destruct (String.eqb k "__proto__") eqn:E.
  - apply String.eqb_eq in E. subst k. reflexivity.
  - destruct (isInherited k); [reflexivity | discriminate].
Qed.

(** X16. Every name in the returned used set is a property of the
    arguments object: one of its keys, or else a name of a member of
    [Object.prototype], which the arguments inherit. Without arguments,
    and for an absent template, nothing is used. *)
Theorem used_names_are_argument_properties :
  (forall (template : option string) (params : list (string * value)) (x : string),
      In x (usedParams (processTemplate template params)) ->
      params <> [] /\
      ((exists v, lookup x params = Some v) \/
       (lookup x params = None /\ isInherited x = true))) /\
  (forall template : option string, usedParams (processTemplate template []) = []) /\
  (forall params, usedParams (processTemplate None params) = []).
Proof.
  split; [|split].
  - intros [template|] params x Hx; [|contradiction].
    destruct params as [|kv params]; [contradiction|].
    split; [discriminate|].
    destruct (processTemplate_rendered template (kv :: params))
      as (names & Hr & Hu); [discriminate|].
    rewrite Hu in Hx. apply (proj1 (Set_from_In names x)) in Hx.
    destruct (Rendered_names_are_properties _ template _ names Hr x Hx) as (v & Hv).
    unfold get in Hv. destruct (lookup x (kv :: params)) as [w|]; [eauto|].
    right. split; [reflexivity|]. now apply (inheritedMember_Some x v).
  - intros [template|]; reflexivity.
  - reflexivity.
Qed.

Lemma used_names_are_argument_properties_witness :
  (exists v, lookup "x" [("x", VNum 5); ("y", VNum 6)] = Some v) \/
  (lookup "x" [("x", VNum 5); ("y", VNum 6)] = None /\ isInherited "x" = true).
Proof.
  destruct used_names_are_argument_properties as (Hused & _).
  apply (Hused (Some "a {{ x }} b {{z}}") [("x", VNum 5); ("y", VNum 6)] "x").
  simpl. now left.
Defined.

(** X17. When the returned used set is empty the returned text is the
    template itself: text changes only through a recorded name. *)
Theorem unused_arguments_leave_template :
  forall (template : string) (params : list (string * value)),
    usedParams (processTemplate (Some template) params) = [] ->
    result (processTemplate (Some template) params) = template.
Proof.
  intros template params Hused.
  destruct params as [|kv params]; [reflexivity|].
  destruct (processTemplate_rendered template (kv :: params))
    as (names & Hr & Hu); [discriminate|].
  rewrite Hu in Hused. apply Set_from_empty in Hused.
  now apply (Rendered_nothing_used _ template _ names Hr).
Qed.

Lemma unused_arguments_leave_template_witness :
  result (processTemplate (Some "{{a}} and {{ b }}") [("x", VNum 5)])
  = "{{a}} and {{ b }}".
Proof.
  apply unused_arguments_leave_template. reflexivity.
Defined.

(** X18. A template in which two opening braces never follow each other
    is returned unchanged, with an empty used set, whatever the
    arguments. *)
Theorem template_without_placeholder_unchanged :
  forall (template : string) (params : list (string * value)),
    occursIn "{{" template = false ->
    processTemplate (Some template) params = mkProcessed template [].
Proof.
  intros template params Hfree.
  destruct params as [|kv params]; [reflexivity|].
  destruct (processTemplate_rendered template (kv :: params))
    as (names & Hr & Hu); [discriminate|].
  destruct (Rendered_without_braces _ template _ names Hr Hfree)
    as [Hout Hnames].
  subst names.
  destruct (processTemplate (Some template) (kv :: params)) as [out used].
  simpl in *. now subst.
Qed.

Lemma template_without_placeholder_unchanged_witness :
  processTemplate (Some "plain {text} with }} braces") [("text", VStr "t")]
  = mkProcessed "plain {text} with }} braces" [].
Proof.
  apply template_without_placeholder_unchanged. reflexivity.
Defined.

End TemplateFacts.

(* ===================================================================== *)
(** * Properties of preset loading *)
(* ===================================================================== *)

Module PresetFacts.
Import JS Config Presets ConfigFacts MergeFacts ListingFacts.

(** ** File names *)

Lemma endsWith_append stem extension : endsWith extension (stem ++ extension) = true.
Proof.
  induction stem as [|c stem IH]; cbn [append endsWith].
  - destruct extension; cbn [endsWith]; now rewrite String.eqb_refl.
  - rewrite IH. apply orb_true_r.
Qed.

Lemma substring_stem stem rest :
  String.substring 0 (String.length stem) (stem ++ rest) = stem.
Proof.
  induction stem as [|c stem IH]; simpl.
  - destruct rest; reflexivity.
  - now rewrite IH.
Qed.

Lemma dropLast_append stem extension :
  dropLast (String.length extension) (stem ++ extension) = stem.
Proof.
  unfold dropLast. rewrite length_append.
  replace (String.length stem + String.length extension - String.length extension)
    with (String.length stem) by lia.
  apply substring_stem.
Qed.

Lemma withoutExtension_append stem extension :
  stem <> EmptyString ->
  withoutExtension extension (stem ++ extension) = stem.
Proof.
  intros Hne. unfold withoutExtension.
  destruct (String.eqb (stem ++ extension) extension) eqn:E.
  - apply String.eqb_eq in E. exfalso.
    assert (Hlen : String.length (stem ++ extension) = String.length extension)
      by now rewrite E.
    rewrite length_append in Hlen. destruct stem; [contradiction | simpl in Hlen; lia].
  - apply dropLast_append.
Qed.

Lemma yml_is_not_yaml stem : endsWith ".yaml" (stem ++ ".yml") = false.
Proof.
  induction stem as [|c stem IH]; [reflexivity|].
  cbn [append endsWith]. rewrite IH, orb_false_r.
  destruct (String.eqb (String c (stem ++ ".yml")) ".yaml") eqn:E; [|reflexivity].
  apply String.eqb_eq in E. exfalso.
  assert (Hlen : String.length (String c (stem ++ ".yml")) = 5) by now rewrite E.
  simpl in Hlen. rewrite length_append in Hlen. simpl in Hlen.
  destruct stem; [discriminate E | simpl in Hlen; lia].
Qed.

Lemma presetName_yaml stem :
  stem <> EmptyString -> presetName (stem ++ ".yaml") = stem.
Proof.
  intros Hne. unfold presetName. rewrite endsWith_append.
  now apply withoutExtension_append.
Qed.

Lemma presetName_yml stem :
  stem <> EmptyString -> presetName (stem ++ ".yml") = stem.
Proof.
  intros Hne. unfold presetName. rewrite yml_is_not_yaml.
  now apply withoutExtension_append.
Qed.

Lemma listed files stem extension :
  extension = ".yaml" \/ extension = ".yml" ->
  stem <> EmptyString ->
  In (stem ++ extension) (keys files) ->
  In stem (listAvailablePresets (Some files)).
Proof.
  intros Hext Hne Hin. unfold listAvailablePresets. apply in_map_iff.
  exists (stem ++ extension). split.
  - destruct Hext as [-> | ->]; [now apply presetName_yaml | now apply presetName_yml].
  - apply filter_In. split; [assumption|].
    destruct Hext as [-> | ->]; rewrite endsWith_append;
      [reflexivity | apply orb_true_r].
Qed.

Lemma loadPreset_available presetsDir available merged preset :
  preset <> EmptyString -> In preset available ->
  loadPreset presetsDir available merged preset
  = mergeConfigs merged (loadPresetConfig presetsDir (preset ++ ".yaml")).
Proof.
  intros Hne Hin. unfold loadPreset.
  destruct preset; [contradiction|]. cbn [truthy_string negb].
  now rewrite (proj2 (includes_In available _) Hin).
Qed.

Lemma loadPreset_skipped presetsDir available merged preset :
  truthy_string (Some preset) && Schema.includes available preset = false ->
  loadPreset presetsDir available merged preset = merged.
Proof.
  unfold loadPreset. intros H.
  destruct (truthy_string (Some preset)); [|reflexivity].
  simpl in H. now rewrite H.
Qed.

(** ** Loading *)

(** X19. A preset kept in [name.yaml] and requested alone loads as the
    declaration set of that file, when its keys are ordinary: same keys,
    same order, same records. *)
Theorem single_preset_loads_its_file :
  forall (files : Directory) (preset : string) (config : DevToolsConfig),
    preset <> EmptyString ->
    lookup (preset ++ ".yaml") files = Some (Parsed config) ->
    NoDup (keys config) ->
    ordinaryKeys config = true ->
    loadPresetConfigs (Some files) [preset] = config.
Proof.
  intros files preset config Hne Hfile Hnd _.
  unfold loadPresetConfigs. cbn [fold_left].
  rewrite loadPreset_available; [|assumption|].
  - unfold loadPresetConfig. rewrite Hfile.
    rewrite mergeConfigs_as_loop.
    rewrite (update_loop_appends combinePrompt config); auto.
  - apply (listed files preset ".yaml"); [now left | assumption|].
    destruct (lookup_None (preset ++ ".yaml") files) as [_ H].
    destruct (in_dec string_dec (preset ++ ".yaml") (keys files)) as [Hin|Hout];
      [assumption|].
    rewrite (H Hout) in Hfile. discriminate Hfile.
Qed.

Lemma single_preset_loads_its_file_witness :
  let pc := mkPromptConfig (Some "p") None None None None None None None in
  loadPresetConfigs
    (Some [("notes.txt", Unreadable); ("coding.yaml", Parsed [("plan", pc)])])
    ["coding"]
  = [("plan", pc)].
Proof.
  intros pc. apply single_preset_loads_its_file.
  - discriminate.
  - reflexivity.
  - constructor; [simpl; tauto | constructor].
  - reflexivity.
Defined.

(** X20. A preset kept only in [name.yml] is listed by
    [listAvailablePresets], but [loadPresetConfigs] reads [name.yaml]: the
    preset loads as the empty declaration set. *)
Theorem yml_preset_is_listed_but_loads_empty :
  forall (files : Directory) (preset : string),
    preset <> EmptyString ->
    In (preset ++ ".yml") (keys files) ->
    lookup (preset ++ ".yaml") files = None ->
    In preset (listAvailablePresets (Some files)) /\
    loadPresetConfigs (Some files) [preset] = [].
Proof.
  intros files preset Hne Hyml Hyaml.
  assert (Hlisted : In preset (listAvailablePresets (Some files)))
    by (apply (listed files preset ".yml"); auto).
  split; [exact Hlisted|].
  unfold loadPresetConfigs. cbn [fold_left].
  rewrite loadPreset_available by assumption.
  unfold loadPresetConfig. rewrite Hyaml. reflexivity.
Qed.

Lemma yml_preset_is_listed_but_loads_empty_witness :
  let pc := mkPromptConfig (Some "p") None None None None None None None in
  In "coding" (listAvailablePresets (Some [("coding.yml", Parsed [("plan", pc)])])) /\
  loadPresetConfigs (Some [("coding.yml", Parsed [("plan", pc)])]) ["coding"] = [].
Proof.
  intros pc. apply yml_preset_is_listed_but_loads_empty.
  - discriminate.
  - simpl. now left.
  - reflexivity.
Defined.

(** X21. Requested names that are empty or not listed change nothing:
    the result is the one for the listed, non-empty names alone; without
    a presets directory it is empty. *)
Theorem unlisted_presets_are_skipped :
  forall (presetsDir : option Directory) (presets : list string),
    loadPresetConfigs presetsDir presets
    = loadPresetConfigs presetsDir
        (filter (fun preset =>
                   truthy_string (Some preset)
                   && Schema.includes (listAvailablePresets presetsDir) preset)
           presets) /\
    loadPresetConfigs None presets = [].
Proof.
  intros presetsDir presets. unfold loadPresetConfigs. split.
  - generalize (@nil (string * PromptConfig)) as merged.
    induction presets as [|preset presets IH]; intros merged; [reflexivity|].
    cbn [fold_left filter].
    destruct (truthy_string (Some preset)
              && Schema.includes (listAvailablePresets presetsDir) preset) eqn:E.
    + cbn [fold_left]. apply IH.
    + rewrite (loadPreset_skipped _ _ merged preset E). apply IH.
  - induction presets as [|preset presets IH]; [reflexivity|].
    cbn [fold_left]. rewrite loadPreset_skipped; [exact IH|].
    cbn [listAvailablePresets]. apply andb_false_r.
Qed.

End PresetFacts.

(* ===================================================================== *)
(** * Loading a configuration directory *)
(* ===================================================================== *)

Module Loading.
Import JS Config Presets.

(** ASCII [toLowerCase]. *)
Definition lowerChar (c : ascii) : ascii :=
  let n := nat_of_ascii c in
  if Nat.leb 65 n && Nat.leb n 90 then ascii_of_nat (n + 32) else c.

Fixpoint toLowerCase (s : string) : string :=
  match s with
  | EmptyString => EmptyString
  | String c rest => String (lowerChar c) (toLowerCase rest)
  end.

(** What the file system answers for a path: [None] when nothing exists
    there or it is not a directory, otherwise the base name of the
    resolved path and the listing of the directory. *)
Definition FileSystem : Type := string -> option (string * Directory).

Definition defaultConfig : DevToolsConfig := [].

Definition validDirNames : list string := [".workflows"; ".mcp-workflows"].

(** The filter on the listing of the directory. *)
Definition isYaml (file : string) : bool :=
  endsWith ".yaml" (toLowerCase file) || endsWith ".yml" (toLowerCase file).

(** The body of the loop over the files: a file that cannot be read or
    parsed, or that does not hold an object, is skipped. *)
Definition mergeFile (mergedConfig : DevToolsConfig) (file : string * FileResult)
  : DevToolsConfig :=
  match snd file with
  | Parsed fileConfig => mergeConfigs mergedConfig fileConfig
  | NotAnObject => mergedConfig
  | Unreadable => mergedConfig
  end.

(** [loadConfigSync], and [loadConfig], which has the same body. *)
Definition loadConfigSync (fs : FileSystem) (directoryPath : option string)
  : DevToolsConfig :=
  if negb (truthy_string directoryPath) then defaultConfig
  else
    match directoryPath with
    | None => defaultConfig
    | Some path =>
        match fs path with
        | None => defaultConfig
        | Some (dirName, listing) =>
            if negb (Schema.includes validDirNames dirName) then defaultConfig
            else
              let files := filter (fun file => isYaml (fst file)) listing in
              match files with
              | [] => defaultConfig
              | _ :: _ => fold_left mergeFile files []
              end
        end
    end.

End Loading.

Module LoadingFacts.
Import JS Config Presets Loading ConfigFacts MergeFacts.

(** The declaration sets of the YAML files of a listing that parse. *)
Fixpoint parsedYaml (listing : Directory) : list DevToolsConfig :=
  match listing with
  | [] => []
  | (file, Parsed config) :: rest =>
      if isYaml file then config :: parsedYaml rest else parsedYaml rest
  | _ :: rest => parsedYaml rest
  end.

Lemma mergeFile_loop listing : forall merged,
  fold_left mergeFile (filter (fun file => isYaml (fst file)) listing) merged
  = fold_left mergeConfigs (parsedYaml listing) merged.
Proof.
  induction listing as [|[file content] listing IH]; intros merged; [reflexivity|].
  cbn [filter fst parsedYaml].
  destruct (isYaml file), content; cbn [fold_left]; apply IH.
Qed.

(** X22. [loadConfigSync] returns the empty default unless the directory
    exists and is named [.workflows] or [.mcp-workflows]; then the result
    is the merge, in listing order, of the YAML files that parse to an
    object: other files, unreadable files and files that hold something
    else never change it. *)
Theorem loadConfigSync_merges_parsed_yaml_files :
  forall (fs : FileSystem) (path : string),
    (forall dirName listing,
        fs path = Some (dirName, listing) ->
        ~ In dirName [".workflows"; ".mcp-workflows"] ->
        loadConfigSync fs (Some path) = []) /\
    (fs path = None -> loadConfigSync fs (Some path) = []) /\
    (forall dirName listing,
        fs path = Some (dirName, listing) ->
        path <> EmptyString ->
        In dirName [".workflows"; ".mcp-workflows"] ->
        loadConfigSync fs (Some path) = fold_left mergeConfigs (parsedYaml listing) []).
Proof.
  intros fs path. unfold loadConfigSync. split; [|split].
  - intros dirName listing Hfs Hname.
    destruct path; [reflexivity|]. cbn [truthy_string negb]. rewrite Hfs.
    destruct (Schema.includes validDirNames dirName) eqn:E; [|reflexivity].
    exfalso. apply Hname. unfold Schema.includes in E.
    apply existsb_exists in E as (x & Hx & Heq).
    apply String.eqb_eq in Heq. now subst.
  - intros Hfs. destruct path; [reflexivity|]. cbn [truthy_string negb].
    now rewrite Hfs.
  - intros dirName listing Hfs Hne Hname.
    destruct path; [contradiction|]. cbn [truthy_string negb]. rewrite Hfs.
    assert (E : Schema.includes validDirNames dirName = true).
    { unfold Schema.includes. apply existsb_exists. exists dirName.
      split; [exact Hname | apply String.eqb_refl]. }
    rewrite E. cbn [negb]. rewrite <- mergeFile_loop.
    destruct (filter (fun file => isYaml (fst file)) listing); reflexivity.
Qed.

Lemma loadConfigSync_merges_parsed_yaml_files_witness :
  let pc := mkPromptConfig (Some "p") None None None None None None None in
  let fs := fun path : string =>
              if String.eqb path "/home/u/.workflows" then
                Some (".workflows",
                      [("README.md", Unreadable); ("a.YAML", Parsed [("plan", pc)]);
                       ("b.yml", NotAnObject)])
              else if String.eqb path "/home/u/presets" then
                Some ("presets", [("a.yaml", Parsed [("plan", pc)])])
              else None in
  loadConfigSync fs (Some "/home/u/.workflows") = [("plan", pc)] /\
  loadConfigSync fs (Some "/home/u/presets") = [].
Proof.
  intros pc fs.
  destruct (loadConfigSync_merges_parsed_yaml_files fs "/home/u/.workflows")
    as (_ & _ & Hvalid).
  destruct (loadConfigSync_merges_parsed_yaml_files fs "/home/u/presets")
    as (Hgate & _ & _).
  split.
  - rewrite (Hvalid ".workflows"
               [("README.md", Unreadable); ("a.YAML", Parsed [("plan", pc)]);
                ("b.yml", NotAnObject)]); [reflexivity | reflexivity | discriminate|].
    simpl. now left.
  - apply (Hgate "presets" [("a.yaml", Parsed [("plan", pc)])]); [reflexivity|].
    simpl. intros [H|[H|[]]]; discriminate H.
Defined.

End LoadingFacts.
